(** * mysqlstore: a Gorilla sessions backend for MySQL

    Shallow embedding of [mysqlstore.go] and [cleanup.go].

    The store talks to three collaborators that are not part of the
    package: the MySQL server behind [database/sql], the cookie codec of
    [gorilla/securecookie] and the request/response objects of
    [net/http].  Each of them is given a small model in a module named
    after the Go package, and the functions of the store itself are
    transcribed statement by statement on top of these models. *)

From Stdlib Require Import ZArith Ascii String List Bool Lia.
From Stdlib Require Import DecimalString DecimalZ.
From stdpp Require Import base option list gmap strings.

Local Open Scope string_scope.
Local Open Scope Z_scope.

(** ** Go values shared by all packages *)

(** The [error] values the store can see.  [nil] is [None] of
    [option error]. *)
Inductive error : Type :=
| MySQLError (Number : Z) (Message : string)   (* *mysql.MySQLError *)
| ErrNoRows                                    (* sql.ErrNoRows *)
| ErrNoCookie                                  (* http.ErrNoCookie *)
| errorString (s : string)                     (* errors.New(s) *)
| DriverError (s : string)                     (* any other driver error *)
| CodecError (s : string).                     (* a securecookie error *)

(** [fmt.Sprintf("%d", n)]: the decimal rendering of an integer. *)
Definition Sprintf_d (n : Z) : string := NilZero.string_of_int (Z.to_int n).

(** [strings.Trim(s, cutset)]: [s] without the leading and trailing
    characters that occur in [cutset]. *)
Fixpoint in_cutset (a : ascii) (cutset : string) : bool :=
  match cutset with
  | EmptyString => false
  | String c rest => Ascii.eqb a c || in_cutset a rest
  end.

Fixpoint TrimLeft (s cutset : string) : string :=
  match s with
  | EmptyString => EmptyString
  | String a s' => if in_cutset a cutset then TrimLeft s' cutset else s
  end.

Fixpoint TrimRight (s cutset : string) : string :=
  match s with
  | EmptyString => EmptyString
  | String a s' =>
      match TrimRight s' cutset with
      | EmptyString => if in_cutset a cutset then EmptyString
                       else String a EmptyString
      | t => String a t
      end
  end.

Definition Trim (s cutset : string) : string :=
  TrimRight (TrimLeft s cutset) cutset.

(** ** The world the store runs in

    One state is threaded through every call: the contents of the
    sessions table, the wall clock, and the tape of outcomes the driver
    will report for the coming calls (a network failure, a lost
    connection, a server-side error).  A call into [database/sql] takes
    the head of the tape; an empty tape means no more failures. *)

Record Row : Type := mkRow {
  id : Z;                 (* INT NOT NULL AUTO_INCREMENT, PRIMARY KEY *)
  session_data : string;  (* LONGBLOB *)
  created_on : Z;         (* TIMESTAMP DEFAULT NOW() *)
  modified_on : Z;        (* TIMESTAMP DEFAULT NOW() ON UPDATE CURRENT_TIMESTAMP *)
  expires_on : Z          (* TIMESTAMP DEFAULT NOW() *)
}.

Record World : Type := mkWorld {
  rows : list Row;                 (* the sessions table *)
  auto_increment : Z;              (* its AUTO_INCREMENT counter *)
  clock : Z;                       (* wall clock, in nanoseconds *)
  outcomes : list (option error)   (* what the driver reports next *)
}.

Definition set_rows (rs : list Row) (w : World) : World :=
  mkWorld rs (auto_increment w) (clock w) (outcomes w).

Definition set_clock (t : Z) (w : World) : World :=
  mkWorld (rows w) (auto_increment w) t (outcomes w).

Definition set_outcomes (os : list (option error)) (w : World) : World :=
  mkWorld (rows w) (auto_increment w) (clock w) os.

(** The state monad of the embedding. *)
Definition M (A : Type) : Type := World -> A * World.

Definition ret {A} (a : A) : M A := fun w => (a, w).

Definition bind {A B} (c : M A) (k : A -> M B) : M B :=
  fun w => let (a, w') := c w in k a w'.

Declare Scope go_scope.
Delimit Scope go_scope with go.
Notation "x <- c ;; k" := (bind c (fun x => k))
  (at level 100, c at next level, right associativity) : go_scope.
Local Open Scope go_scope.

Definition get_clock : M Z := fun w => (clock w, w).

(** The driver consults the tape once per call. *)
Definition next_outcome : M (option error) :=
  fun w =>
    match outcomes w with
    | [] => (None, w)
    | o :: rest => (o, set_outcomes rest w)
    end.

(** Second of the wall clock: the value of MySQL's [NOW()] for a
    [TIMESTAMP] column. *)
Definition Second : Z := 1000000000.
Definition NOW (w : World) : Z := clock w / Second.

(** ** [database/sql] over the MySQL driver *)

(** The six statements of the store.  [query_text] is the SQL text the
    source builds; [run_query] below is what the server does with it. *)
Inductive Query : Type :=
| cTableQ (tableName : string)
| insQ (tableName : string) (maxAge : Z)
| delQ (tableName : string)
| updQ (tableName : string)
| selQ (tableName : string)
| cleanQ (tableName : string).

Definition query_text (q : Query) : string :=
  match q with
  | cTableQ tableName =>
      "CREATE TABLE IF NOT EXISTS " +:+
      tableName +:+ " (id INT NOT NULL AUTO_INCREMENT, " +:+
      "session_data LONGBLOB, " +:+
      "created_on TIMESTAMP DEFAULT NOW(), " +:+
      "modified_on TIMESTAMP DEFAULT NOW() ON UPDATE CURRENT_TIMESTAMP, " +:+
      "expires_on TIMESTAMP DEFAULT NOW(), PRIMARY KEY(`id`)) ENGINE=InnoDB"
  | insQ tableName maxAge =>
      "INSERT INTO " +:+ tableName +:+ "(id, session_data, expires_on) VALUES" +:+
      (" (NULL, ?, ADDDATE(NOW(), INTERVAL " +:+ Sprintf_d maxAge +:+ " SECOND))")
  | delQ tableName =>
      "DELETE FROM " +:+ tableName +:+ " WHERE id = ?"
  | updQ tableName =>
      "UPDATE " +:+ tableName +:+ " SET session_data = ? WHERE id = ?"
  | selQ tableName =>
      "SELECT id, session_data, expires_on < NOW() FROM " +:+
      tableName +:+ " WHERE id = ?"
  | cleanQ tableName =>
      "DELETE FROM " +:+ tableName +:+ " WHERE expires_on < NOW()"
  end.

(** [*sql.Stmt]: a prepared statement. *)
Record Stmt : Type := mkStmt { stmt_query : Query }.

(** [sql.Result]. *)
Record Result : Type := mkResult { insert_id : Z; rows_affected : Z }.

(** [*sql.Row]: the outcome of [QueryRow], read by [Scan].  The select
    of the store has three columns. *)
Record SqlRow : Type := mkSqlRow {
  row_err : option error;
  row_cols : option (Z * string * bool)
}.

Section Server.

(** MySQL compares the [INT] column [id] with the string parameter
    bound to [?] after converting the string to a number.  The
    conversion is the server's; the embedding takes the comparison as
    a parameter. *)
Variable sql_eq_id : Z -> string -> bool.

(** [UPDATE .. SET session_data = ? WHERE id = ?] on one row.
    [modified_on] follows [ON UPDATE CURRENT_TIMESTAMP]: it moves only
    when the row really changes. *)
Definition update_row (now : Z) (data idp : string) (r : Row) : Row :=
  if sql_eq_id (id r) idp then
    if String.eqb (session_data r) data then r
    else mkRow (id r) data (created_on r) now (expires_on r)
  else r.

(** The SQL expression [expires_on < NOW()] on a row. *)
Definition past_expiry (now : Z) (r : Row) : bool := expires_on r <? now.

Definition count_rows (f : Row -> bool) (rs : list Row) : Z :=
  Z.of_nat (length (List.filter f rs)).

(** What the server does with a statement and its bound parameters. *)
Definition run_query (q : Query) (args : list string) (w : World)
  : (Result + error) * World :=
  match q, args with
  | cTableQ _, [] =>
      (* IF NOT EXISTS: the table is there already *)
      (inl (mkResult 0 0), w)
  | insQ _ maxAge, [data] =>
      let n := auto_increment w in
      let r := mkRow n data (NOW w) (NOW w) (NOW w + maxAge) in
      (inl (mkResult n 1),
       mkWorld (rows w ++ [r]) (n + 1) (clock w) (outcomes w))
  | delQ _, [idp] =>
      (inl (mkResult 0 (count_rows (fun r => sql_eq_id (id r) idp) (rows w))),
       set_rows (List.filter (fun r => negb (sql_eq_id (id r) idp)) (rows w)) w)
  | updQ _, [data; idp] =>
      (inl (mkResult 0
              (count_rows (fun r => sql_eq_id (id r) idp
                                    && negb (String.eqb (session_data r) data))
                          (rows w))),
       set_rows (List.map (update_row (NOW w) data idp) (rows w)) w)
  | cleanQ _, [] =>
      (inl (mkResult 0 (count_rows (past_expiry (NOW w)) (rows w))),
       set_rows (List.filter (fun r => negb (past_expiry (NOW w) r)) (rows w)) w)
  | selQ _, [_] =>
      (inl (mkResult 0 0), w)
  | _, _ =>
      (inr (DriverError "sql: wrong number of arguments"), w)
  end.

(** The row a [SELECT id, session_data, expires_on < NOW() .. WHERE
    id = ?] returns: the comparison with [NOW()] is a column of the
    result, computed by the server. *)
Definition run_select (idp : string) (w : World) : option (Z * string * bool) :=
  match List.find (fun r => sql_eq_id (id r) idp) (rows w) with
  | Some r => Some (id r, session_data r, past_expiry (NOW w) r)
  | None => None
  end.

(** [db.Exec(query)] and [stmt.Exec(args...)]. *)
Definition DB_Exec (q : Query) (args : list string) : M (Result + error) :=
  o <- next_outcome ;;
  match o with
  | Some err => ret (inr err)
  | None => run_query q args
  end.

Definition Stmt_Exec (st : Stmt) (args : list string) : M (Result + error) :=
  DB_Exec (stmt_query st) args.

(** [db.Prepare(query)]. *)
Definition DB_Prepare (q : Query) : M (Stmt + error) :=
  o <- next_outcome ;;
  match o with
  | Some err => ret (inr err)
  | None => ret (inl (mkStmt q))
  end.

(** [res.LastInsertId()]. *)
Definition LastInsertId (res : Result) : M (Z + error) :=
  o <- next_outcome ;;
  match o with
  | Some err => ret (inr err)
  | None => ret (inl (insert_id res))
  end.

(** [stmt.QueryRow(id)]: errors are kept in the row until [Scan]. *)
Definition Stmt_QueryRow (st : Stmt) (idp : string) : M SqlRow :=
  o <- next_outcome ;;
  match o with
  | Some err => ret (mkSqlRow (Some err) None)
  | None =>
      match stmt_query st with
      | selQ _ => fun w => (mkSqlRow None (run_select idp w), w)
      | _ => ret (mkSqlRow (Some (DriverError "sql: not a query")) None)
      end
  end.

(** [row.Scan(&id, &data, &expired)] with [id] and [data] strings. *)
Definition Scan (row : SqlRow) : (string * string * bool) + error :=
  match row_err row with
  | Some err => inr err
  | None =>
      match row_cols row with
      | None => inr ErrNoRows
      | Some (i, d, e) => inl (Sprintf_d i, d, e)
      end
  end.

End Server.

(** ** [net/http] *)

Module http.

Record Cookie : Type := mkCookie {
  Name : string;
  Value : string;
  Path : string;
  Domain : string;
  MaxAge : Z;
  Secure : bool;
  HttpOnly : bool
}.

(** A request, as far as the store reads it: its cookies. *)
Record Request : Type := mkRequest { Cookies : list Cookie }.

(** [r.Cookie(name)]: the first cookie of that name, or
    [ErrNoCookie]. *)
Definition Cookie_ (r : Request) (name : string) : Cookie + error :=
  match List.find (fun c => String.eqb (Name c) name) (Cookies r) with
  | Some c => inl c
  | None => inr ErrNoCookie
  end.

(** A response writer, as far as the store writes it: the cookies
    handed to [http.SetCookie], oldest first. *)
Record ResponseWriter : Type := mkResponseWriter { SetCookies : list Cookie }.

Definition SetCookie (w : ResponseWriter) (cookie : Cookie) : ResponseWriter :=
  mkResponseWriter (SetCookies w ++ [cookie]).

End http.

(** ** [gorilla/sessions] *)

Module sessions.

(** [sessions.Options]. *)
Record options : Type := mkOptions {
  Path : string;
  Domain : string;
  MaxAge : Z;
  Secure : bool;
  HttpOnly : bool
}.

(** [sessions.Session].  [Values] is a Go map, shared by reference and
    changed in place; sessions handled by the store carry their
    [Options] (they come from [New]). *)
Record Session : Type := mkSession {
  ID : string;
  Values : gmap string string;
  Options : options;
  IsNew : bool;
  name : string
}.

(** [session.Name()]. *)
Definition Name (s : Session) : string := name s.

(** [sessions.NewSession(store, name)]: no identifier, an empty map.
    [Options] and [IsNew] are at their zero values until the store
    fills them. *)
Definition NewSession (name : string) : Session :=
  mkSession "" ∅ (mkOptions "" "" 0 false false) false name.

(** [sessions.NewCookie(name, value, options)]. *)
Definition NewCookie (name value : string) (o : options) : http.Cookie :=
  http.mkCookie name value (Path o) (Domain o) (MaxAge o) (Secure o) (HttpOnly o).

End sessions.

Definition set_ID (v : string) (s : sessions.Session) : sessions.Session :=
  sessions.mkSession v (sessions.Values s) (sessions.Options s)
                     (sessions.IsNew s) (sessions.name s).

Definition set_Values (v : gmap string string) (s : sessions.Session)
  : sessions.Session :=
  sessions.mkSession (sessions.ID s) v (sessions.Options s)
                     (sessions.IsNew s) (sessions.name s).

Definition set_Options (v : sessions.options) (s : sessions.Session)
  : sessions.Session :=
  sessions.mkSession (sessions.ID s) (sessions.Values s) v
                     (sessions.IsNew s) (sessions.name s).

Definition set_IsNew (v : bool) (s : sessions.Session) : sessions.Session :=
  sessions.mkSession (sessions.ID s) (sessions.Values s) (sessions.Options s)
                     v (sessions.name s).

Definition set_MaxAge (v : Z) (o : sessions.options) : sessions.options :=
  sessions.mkOptions (sessions.Path o) (sessions.Domain o) v
                     (sessions.Secure o) (sessions.HttpOnly o).

(** ** [gorilla/securecookie]

    The codec is an interface of another package.  Its functions see the
    clock (a token carries a timestamp and has a maximal age).  A
    decoder writes through its destination pointer only when it
    succeeds, so it is given as a function that returns the decoded
    value. *)
Class Securecookie : Type := {
  Codec : Type;
  CodecsFromPairs : list (list Byte.byte) -> list Codec;
  encode_ID : Z -> string -> string -> list Codec -> string + error;
  decode_ID : Z -> string -> string -> list Codec -> string + error;
  encode_Values : Z -> string -> gmap string string -> list Codec -> string + error;
  decode_Values : Z -> string -> string -> list Codec -> gmap string string + error
}.

(** ** The store: [mysqlstore.go] *)

(** [*sql.DB]: the connection handle. *)
Inductive DB : Type := Conn.

Section Store.

Context {sc : Securecookie}.
Variable sql_eq_id : Z -> string -> bool.

(** [securecookie.EncodeMulti] and [securecookie.DecodeMulti] at the
    two types the store uses them at. *)
Definition EncodeMulti_ID (name value : string) (codecs : list Codec)
  : M (string + error) :=
  now <- get_clock ;; ret (encode_ID now name value codecs).

Definition DecodeMulti_ID (name value : string) (codecs : list Codec)
  : M (string + error) :=
  now <- get_clock ;; ret (decode_ID now name value codecs).

Definition EncodeMulti_Values (name : string) (value : gmap string string)
           (codecs : list Codec) : M (string + error) :=
  now <- get_clock ;; ret (encode_Values now name value codecs).

Definition DecodeMulti_Values (name value : string) (codecs : list Codec)
  : M (gmap string string + error) :=
  now <- get_clock ;; ret (decode_Values now name value codecs).

Record MySQLStore : Type := mkMySQLStore {
  db : DB;
  stmtInsert : Stmt;
  stmtDelete : Stmt;
  stmtUpdate : Stmt;
  stmtSelect : Stmt;
  stmtCleanup : Stmt;
  Codecs : list Codec;
  Options : sessions.options;
  table : string
}.

Record sessionRow : Type := mkSessionRow { sess_id : string; sess_data : string }.

(** [NewMySQLStoreFromConnection]: a Go result pair [(store, err)]. *)
Definition NewMySQLStoreFromConnection
           (db : DB) (tableName path : string) (maxAge : Z)
           (keyPairs : list (list Byte.byte))
  : M (option MySQLStore * option error) :=
  (* Make sure table name is enclosed. *)
  let tableName := "`" +:+ Trim tableName "`" +:+ "`" in
  let prepare_all : M (option MySQLStore * option error) :=
    r <- DB_Prepare (insQ tableName maxAge) ;;
    match r with
    | inr stmtErr => ret (None, Some stmtErr)
    | inl stmtInsert =>
    r <- DB_Prepare (delQ tableName) ;;
    match r with
    | inr stmtErr => ret (None, Some stmtErr)
    | inl stmtDelete =>
    r <- DB_Prepare (updQ tableName) ;;
    match r with
    | inr stmtErr => ret (None, Some stmtErr)
    | inl stmtUpdate =>
    r <- DB_Prepare (selQ tableName) ;;
    match r with
    | inr stmtErr => ret (None, Some stmtErr)
    | inl stmtSelect =>
    r <- DB_Prepare (cleanQ tableName) ;;
    match r with
    | inr stmtErr => ret (None, Some stmtErr)
    | inl stmtCleanup =>
        ret (Some (mkMySQLStore db stmtInsert stmtDelete stmtUpdate
                                stmtSelect stmtCleanup
                                (CodecsFromPairs keyPairs)
                                (sessions.mkOptions path "" maxAge false false)
                                tableName),
             None)
    end end end end end in
  r <- DB_Exec sql_eq_id (cTableQ tableName) [] ;;
  match r with
  | inr err =>
      match err with
      | MySQLError Number _ =>
          (* Error 1142 means permission denied for create command *)
          if Number =? 1142 then prepare_all
          else ret (None, Some err)
      | _ => ret (None, Some err)
      end
  | inl _ => prepare_all
  end.

(** [load]: the session goes in and comes out (it is a pointer in the
    source). *)
Definition load (m : MySQLStore) (session : sessions.Session)
  : M (sessions.Session * option error) :=
  row <- Stmt_QueryRow sql_eq_id (stmtSelect m) (sessions.ID session) ;;
  match Scan row with
  | inr scanErr => ret (session, Some scanErr)
  | inl (i, d, expired) =>
      let sess := mkSessionRow i d in
      if expired then ret (session, Some (errorString "Session expired"))
      else
        r <- DecodeMulti_Values (sessions.Name session) (sess_data sess) (Codecs m) ;;
        match r with
        | inr err => ret (session, Some err)
        | inl values => ret (set_Values values session, None)
        end
  end.

(** [New] creates a new session. *)
Definition New (m : MySQLStore) (r : http.Request) (name : string)
  : M (sessions.Session * option error) :=
  let session := sessions.NewSession name in
  let session :=
    set_Options (sessions.mkOptions (sessions.Path (Options m))
                                    (sessions.Domain (Options m))
                                    (sessions.MaxAge (Options m))
                                    (sessions.Secure (Options m))
                                    (sessions.HttpOnly (Options m)))
                session in
  let session := set_IsNew true session in
  match http.Cookie_ r name with
  | inl cook =>
      d <- DecodeMulti_ID name (http.Value cook) (Codecs m) ;;
      match d with
      | inr err => ret (session, Some err)
      | inl decoded =>
          let session := set_ID decoded session in
          p <- load m session ;;
          let (session, err) := p in
          match err with
          | None => ret (set_IsNew false session, None)
          | Some _ => ret (session, None)
          end
      end
  | inr errCookie => ret (session, None)
  end.

Definition insert (m : MySQLStore) (session : sessions.Session)
  : M (sessions.Session * option error) :=
  e <- EncodeMulti_Values (sessions.Name session) (sessions.Values session)
                          (Codecs m) ;;
  match e with
  | inr encErr => ret (session, Some encErr)
  | inl encoded =>
      r <- Stmt_Exec sql_eq_id (stmtInsert m) [encoded] ;;
      match r with
      | inr insErr => ret (session, Some insErr)
      | inl res =>
          l <- LastInsertId res ;;
          match l with
          | inr lInsErr => ret (session, Some lInsErr)
          | inl lastInserted =>
              ret (set_ID (Sprintf_d lastInserted) session, None)
          end
      end
  end.

Definition save (m : MySQLStore) (session : sessions.Session)
  : M (sessions.Session * option error) :=
  if sessions.IsNew session then insert m session
  else
    e <- EncodeMulti_Values (sessions.Name session) (sessions.Values session)
                            (Codecs m) ;;
    match e with
    | inr encErr => ret (session, Some encErr)
    | inl encoded =>
        r <- Stmt_Exec sql_eq_id (stmtUpdate m) [encoded; sessions.ID session] ;;
        match r with
        | inr updErr => ret (session, Some updErr)
        | inl _ => ret (session, None)
        end
    end.

(** [Save] saves the session.  The response writer and the session are
    returned with the error: both are changed through pointers. *)
Definition Save (m : MySQLStore) (r : http.Request) (w : http.ResponseWriter)
           (session : sessions.Session)
  : M (http.ResponseWriter * sessions.Session * option error) :=
  p <- (if String.eqb (sessions.ID session) "" then insert m session
        else save m session) ;;
  let (session, err) := p in
  match err with
  | Some err => ret (w, session, Some err)
  | None =>
      e <- EncodeMulti_ID (sessions.Name session) (sessions.ID session)
                          (Codecs m) ;;
      match e with
      | inr err => ret (w, session, Some err)
      | inl encoded =>
          ret (http.SetCookie w (sessions.NewCookie (sessions.Name session)
                                                    encoded
                                                    (sessions.Options session)),
               session, None)
      end
  end.

(** [for k := range session.Values { delete(session.Values, k) }] *)
Definition range_delete (values : gmap string string) : gmap string string :=
  fold_left (fun vs k => delete k vs) (List.map fst (map_to_list values)) values.

(** [Delete] deletes a session. *)
Definition Delete (m : MySQLStore) (r : http.Request) (w : http.ResponseWriter)
           (session : sessions.Session)
  : M (http.ResponseWriter * sessions.Session * option error) :=
  (* Set cookie to expire. *)
  let options := sessions.Options session in
  let options := set_MaxAge (-1) options in
  let w := http.SetCookie w (sessions.NewCookie (sessions.Name session) "" options) in
  (* Clear session values. *)
  let session := set_Values (range_delete (sessions.Values session)) session in
  r <- Stmt_Exec sql_eq_id (stmtDelete m) [sessions.ID session] ;;
  match r with
  | inr delErr => ret (w, session, Some delErr)
  | inl _ => ret (w, session, None)
  end.

End Store.

(** ** The sweeper: [cleanup.go] *)

(** [time.Duration] counts nanoseconds. *)
Definition Minute : Z := 60 * Second.

Definition defaultInterval : Z := Minute * 5.

(** [*time.Ticker].  [C] has room for one tick; a tick that finds it
    full is dropped. *)
Record Ticker : Type := mkTicker {
  period : Z;
  next_tick : Z;      (* when the runtime delivers the next tick *)
  C : bool;           (* a tick waits in the channel *)
  stopped : bool
}.

(** [time.NewTicker(d)] panics unless [d] is positive. *)
Definition NewTicker (d now : Z) : option Ticker :=
  if d <=? 0 then None else Some (mkTicker d (now + d) false false).

(** [ticker.Stop()]. *)
Definition Ticker_Stop (t : Ticker) : Ticker :=
  mkTicker (period t) (next_tick t) (C t) true.

(** Where the goroutine running [cleanup] stands. *)
Inductive goroutine : Type :=
| Spawned (interval : Z)   (* [go m.cleanup(interval, quit, done)], not yet run *)
| Selecting                (* blocked in the [select] *)
| Purging                  (* [case <-ticker.C]: before [m.stmtCleanup.Exec()] *)
| SendingDone              (* [case <-quit]: blocked in [done <- struct{}{}] *)
| Returning                (* at [return]: the deferred function is still to run *)
| Exited
| Panicked.

(** Where the owner of the two channels stands in [StopCleanup]. *)
Inductive caller : Type :=
| Holding                  (* has [quit] and [done], has not called [StopCleanup] *)
| SendingQuit              (* blocked in [quit <- struct{}{}] *)
| ReceivingDone            (* blocked in [<-done] *)
| Returned.                (* [StopCleanup] has returned *)

(** One line of the log: the format of [log.Printf] and its argument. *)
Definition log_entry (err : error) : string * error :=
  ("mysqlstore: unable to delete expired sessions: %v", err).

(** The two unbuffered channels carry no state of their own: who is
    blocked on them is in [task] and [owner]. *)
Record System : Type := mkSystem {
  world : World;
  task : goroutine;
  ticker : option Ticker;
  owner : caller;
  log : list (string * error);
  sweeps : nat              (* executions of the delete-expired statement *)
}.

(** What the scheduler, the clock and the owner can do next. *)
Inductive event : Type :=
| Elapse (d : Z)   (* [d] nanoseconds pass *)
| Fire             (* the runtime delivers a due tick to [ticker.C] *)
| Run              (* the goroutine runs its next statement *)
| RecvTick         (* the [select] takes [case <-ticker.C] *)
| CallStop         (* the owner calls [StopCleanup(quit, done)] *)
| Quit             (* [quit <- struct{}{}] meets [case <-quit] *)
| Done.            (* [done <- struct{}{}] meets [<-done] *)

Section Sweeper.

Context {sc : Securecookie}.
Variable sql_eq_id : Z -> string -> bool.
Variable m : MySQLStore.

(** [Cleanup] runs a background goroutine every interval that deletes
    expired sessions from the database. *)
Definition Cleanup (interval : Z) (w : World) : System :=
  let interval := if interval <=? 0 then defaultInterval else interval in
  (* quit, done := make(chan struct{}), make(chan struct{}) *)
  (* go m.cleanup(interval, quit, done) *)
  mkSystem w (Spawned interval) None Holding [] 0.

(** The statements of [cleanup], one per [Run]. *)
Definition cleanup_run (s : System) : option System :=
  match task s with
  | Spawned interval =>
      (* ticker := time.NewTicker(interval) *)
      match NewTicker interval (clock (world s)) with
      | None => Some (mkSystem (world s) Panicked (ticker s) (owner s)
                               (log s) (sweeps s))
      | Some t => Some (mkSystem (world s) Selecting (Some t) (owner s)
                                 (log s) (sweeps s))
      end
  | Purging =>
      (* Delete expired sessions on each tick. *)
      let (r, w') := Stmt_Exec sql_eq_id (stmtCleanup m) [] (world s) in
      match r with
      | inr err => Some (mkSystem w' Selecting (ticker s) (owner s)
                                  (log s ++ [log_entry err]) (S (sweeps s)))
      | inl _ => Some (mkSystem w' Selecting (ticker s) (owner s)
                                (log s) (S (sweeps s)))
      end
  | Returning =>
      (* defer func() { ticker.Stop() }() *)
      Some (mkSystem (world s) Exited (option_map Ticker_Stop (ticker s))
                     (owner s) (log s) (sweeps s))
  | Selecting | SendingDone | Exited | Panicked => None
  end.

Definition step (e : event) (s : System) : option System :=
  match e with
  | Elapse d =>
      if d <? 0 then None
      else Some (mkSystem (set_clock (clock (world s) + d) (world s))
                          (task s) (ticker s) (owner s) (log s) (sweeps s))
  | Fire =>
      match ticker s with
      | Some t =>
          if negb (stopped t) && (next_tick t <=? clock (world s)) then
            Some (mkSystem (world s) (task s)
                           (Some (mkTicker (period t) (next_tick t + period t)
                                           true (stopped t)))
                           (owner s) (log s) (sweeps s))
          else None
      | None => None
      end
  | Run => cleanup_run s
  | RecvTick =>
      match task s, ticker s with
      | Selecting, Some t =>
          if C t then
            Some (mkSystem (world s) Purging
                           (Some (mkTicker (period t) (next_tick t) false (stopped t)))
                           (owner s) (log s) (sweeps s))
          else None
      | _, _ => None
      end
  | CallStop =>
      match owner s with
      | Holding => Some (mkSystem (world s) (task s) (ticker s) SendingQuit
                                  (log s) (sweeps s))
      | _ => None
      end
  | Quit =>
      match owner s, task s with
      | SendingQuit, Selecting =>
          (* Handle the quit signal. *)
          Some (mkSystem (world s) SendingDone (ticker s) ReceivingDone
                         (log s) (sweeps s))
      | _, _ => None
      end
  | Done =>
      match owner s, task s with
      | ReceivingDone, SendingDone =>
          Some (mkSystem (world s) Returning (ticker s) Returned
                         (log s) (sweeps s))
      | _, _ => None
      end
  end.

(** A schedule, run from left to right. *)
Fixpoint run (es : list event) (s : System) : option System :=
  match es with
  | [] => Some s
  | e :: es' =>
      match step e s with
      | Some s' => run es' s'
      | None => None
      end
  end.

End Sweeper.

(** ** A small instance of the collaborators

    The theorems below hold for every codec and every comparison of the
    server.  The instance here makes the embedding run on concrete
    requests and tables. *)

Module Sample.

(** Comparison of [id] with a parameter written in decimal. *)
Definition sql_eq_id (n : Z) (s : string) : bool :=
  match NilZero.int_of_string s with
  | Some d => Z.of_int d =? n
  | None => false
  end.

(** A toy codec: an identifier token is [name|value]; a values token
    lists [key=value;] entries. *)
Fixpoint strip_prefix (p s : string) : option string :=
  match p, s with
  | EmptyString, _ => Some s
  | String a p', String b s' => if Ascii.eqb a b then strip_prefix p' s' else None
  | String _ _, EmptyString => None
  end.

Definition render (kv : string * string) : string :=
  fst kv +:+ "=" +:+ snd kv +:+ ";".

Fixpoint parse (s : string) (key : option string) (cur : string)
         (acc : gmap string string) : option (gmap string string) :=
  match s with
  | EmptyString =>
      match key, cur with
      | None, EmptyString => Some acc
      | _, _ => None
      end
  | String a s' =>
      if Ascii.eqb a "=" then
        match key with
        | None => parse s' (Some cur) EmptyString acc
        | Some _ => None
        end
      else if Ascii.eqb a ";" then
        match key with
        | Some k => parse s' None EmptyString (<[k := cur]> acc)
        | None => None
        end
      else parse s' key (cur +:+ String a EmptyString) acc
  end.

Definition no_codecs : error := CodecError "securecookie: no codecs provided".
Definition not_valid : error := CodecError "securecookie: the value is not valid".

#[export] Instance codec : Securecookie := {|
  Codec := list Byte.byte;
  CodecsFromPairs := fun keyPairs => keyPairs;
  encode_ID := fun _ name value codecs =>
    match codecs with
    | [] => inr no_codecs
    | _ => inl (name +:+ "|" +:+ value)
    end;
  decode_ID := fun _ name token codecs =>
    match codecs with
    | [] => inr no_codecs
    | _ => match strip_prefix (name +:+ "|") token with
           | Some v => inl v
           | None => inr not_valid
           end
    end;
  encode_Values := fun _ name values codecs =>
    match codecs with
    | [] => inr no_codecs
    | _ => inl (name +:+ "|" +:+
                fold_right String.append EmptyString
                           (List.map render (map_to_list values)))
    end;
  decode_Values := fun _ name token codecs =>
    match codecs with
    | [] => inr no_codecs
    | _ => match strip_prefix (name +:+ "|") token with
           | Some body => match parse body None EmptyString ∅ with
                          | Some values => inl values
                          | None => inr not_valid
                          end
           | None => inr not_valid
           end
    end
|}.

Definition key : list (list Byte.byte) := [[Byte.x6b; Byte.x65; Byte.x79]].

Definition empty_world : World := mkWorld [] 1 0 [].

(** The store over the table [sessions], sessions living one hour. *)
Definition store : MySQLStore :=
  mkMySQLStore Conn
               (mkStmt (insQ "`sessions`" 3600))
               (mkStmt (delQ "`sessions`"))
               (mkStmt (updQ "`sessions`"))
               (mkStmt (selQ "`sessions`"))
               (mkStmt (cleanQ "`sessions`"))
               key (sessions.mkOptions "/" "" 3600 false false)
               "`sessions`".

End Sample.

(** ** Predicates used in the statements *)

Section Invariants.

Context {sc : Securecookie}.

(** The five statements of a store are those its constructor prepares
    for its table and its lifetime of sessions. *)
Definition prepared (m : MySQLStore) : Prop :=
  stmtInsert m = mkStmt (insQ (table m) (sessions.MaxAge (Options m))) /\
  stmtDelete m = mkStmt (delQ (table m)) /\
  stmtUpdate m = mkStmt (updQ (table m)) /\
  stmtSelect m = mkStmt (selQ (table m)) /\
  stmtCleanup m = mkStmt (cleanQ (table m)).

(** The driver reports no failure for the next call. *)
Definition driver_ok (w : World) : Prop := hd None (outcomes w) = None.

(** The world once the driver has answered one call. *)
Definition answered (w : World) : World := set_outcomes (tl (outcomes w)) w.

(** The counter of the table is ahead of every identifier in it. *)
Definition counter_ahead (w : World) : Prop :=
  Forall (fun r => id r < auto_increment w) (rows w).

(** The session [New] starts from: no identifier, no values, the
    options of the store, [IsNew] set. *)
Definition fresh (m : MySQLStore) (name : string) : sessions.Session :=
  sessions.mkSession "" ∅
    (sessions.mkOptions (sessions.Path (Options m)) (sessions.Domain (Options m))
                        (sessions.MaxAge (Options m)) (sessions.Secure (Options m))
                        (sessions.HttpOnly (Options m)))
    true name.

(** The first failure among the next [n] answers of the driver. *)
Fixpoint first_failure (n : nat) (os : list (option error)) : option error :=
  match n, os with
  | O, _ => None
  | S _, [] => None
  | S _, Some e :: _ => Some e
  | S n', None :: os' => first_failure n' os'
  end.

(** The update statement on a table: identifiers, creation and
    expiration times stay, and a row the [WHERE] clause does not select
    stays as a whole. *)
Definition same_but_data (sql_eq_id : Z -> string -> bool) (idp : string) (old new : Row) : Prop :=
  id new = id old /\
  created_on new = created_on old /\
  expires_on new = expires_on old /\
  (sql_eq_id (id old) idp = false -> new = old).

(** What holds of the goroutine in every state of the sweeper: it has
    its ticker from the first statement on, the ticker runs until the
    deferred call stops it, and its period is positive. *)
Definition loop_inv (s : System) : Prop :=
  match task s with
  | Spawned interval => 0 < interval /\ ticker s = None
  | Selecting | Purging | SendingDone | Returning =>
      exists t, ticker s = Some t /\ stopped t = false /\ 0 < period t
  | Exited => exists t, ticker s = Some t /\ stopped t = true
  | Panicked => False
  end.

(** How far the owner is in [StopCleanup] tells where the goroutine
    is. *)
Definition handshake_inv (s : System) : Prop :=
  match owner s with
  | Holding | SendingQuit =>
      match task s with
      | Spawned _ | Selecting | Purging => True
      | _ => False
      end
  | ReceivingDone => task s = SendingDone
  | Returned => task s = Returning \/ task s = Exited
  end.

End Invariants.

(** ** The entry point over a data source name *)

Section Open.

Context {sc : Securecookie}.
Variable sql_eq_id : Z -> string -> bool.

(** [sql.Open(driverName, dataSourceName)]: the driver answers with a
    handle or with an error. *)
Definition sql_Open (driverName dataSourceName : string) : M (DB + error) :=
  o <- next_outcome ;;
  match o with
  | Some err => ret (inr err)
  | None => ret (inl Conn)
  end.

(** [NewMySQLStore] creates a new MySQLStore from a MySQL DSN. *)
Definition NewMySQLStore (endpoint tableName path : string) (maxAge : Z)
           (keyPairs : list (list Byte.byte))
  : M (option MySQLStore * option error) :=
  r <- sql_Open "mysql" endpoint ;;
  match r with
  | inr err => ret (None, Some err)
  | inl db => NewMySQLStoreFromConnection sql_eq_id db tableName path maxAge keyPairs
  end.

End Open.

(** ** Further notions used in the statements *)

(** A computation keeps a property of the world. *)
Definition preserves {A : Type} (P : World -> Prop) (c : M A) : Prop :=
  forall w, P w -> P (snd (c w)).

(** The table and its counter, which reading never changes. *)
Definition same_table (w0 w : World) : Prop :=
  rows w = rows w0 /\ auto_increment w = auto_increment w0 /\ clock w = clock w0.

(** The interval the goroutine is started with. *)
Definition started_with (interval : Z) : Z :=
  if interval <=? 0 then defaultInterval else interval.

(** Ticks the runtime delivers in a schedule. *)
Definition fires (es : list event) : nat :=
  length (List.filter (fun e => match e with Fire => true | _ => false end) es).

(** Ticks delivered and not yet answered by a purge: one may wait in the
    channel, one may have been taken by the goroutine. *)
Definition pending (s : System) : nat :=
  ((match ticker s with
    | Some t => if C t then 1 else 0
    | None => 0
    end)
   + (match task s with
      | Purging => 1
      | _ => 0
      end))%nat.

(** What the clock and the ticker keep, from the state [Cleanup] was
    called in at time [c0] with the interval [i] the goroutine was
    started with: time does not go back, the ticker has that period and
    no tick of it is due before [c0 + i], and no purge is begun or done
    before then. *)
Definition timing_inv (c0 i : Z) (s : System) : Prop :=
  c0 <= clock (world s) /\
  (forall interval, task s = Spawned interval ->
                    interval = i /\ ticker s = None /\ sweeps s = O) /\
  (forall t, ticker s = Some t ->
             period t = i /\ c0 + i <= next_tick t /\
             (C t = true -> c0 + i <= clock (world s))) /\
  (task s = Purging -> c0 + i <= clock (world s)) /\
  (sweeps s <> O -> c0 + i <= clock (world s)).

(** What the sweeper keeps of the table it was started on: it adds no
    row, and a row that has not expired by now is still there. *)
Definition sweep_inv (w0 : World) (s : System) : Prop :=
  clock w0 <= clock (world s) /\
  (forall x, In x (rows (world s)) -> In x (rows w0)) /\
  (forall x, In x (rows w0) -> NOW (world s) <= expires_on x ->
             In x (rows (world s))).

Example Trim_backticks : Trim "``ses`sions`" "`" = "ses`sions".
Proof. reflexivity. Qed.

Example Sprintf_d_42 : Sprintf_d 42 = "42" /\ Sprintf_d 0 = "0" /\ Sprintf_d (-7) = "-7".
Proof. repeat split; reflexivity. Qed.

Example sample_store_built :
  fst (NewMySQLStoreFromConnection Sample.sql_eq_id Conn "sessions" "/" 3600
                                   Sample.key Sample.empty_world)
  = (Some Sample.store, None).
Proof. reflexivity. Qed.

Example insert_text :
  query_text (insQ "`sessions`" 3600)
  = "INSERT INTO `sessions`(id, session_data, expires_on) VALUES (NULL, ?, ADDDATE(NOW(), INTERVAL 3600 SECOND))".
Proof. reflexivity. Qed.

(** ** Basic facts about the driver model *)

Lemma next_outcome_ok w :
  driver_ok w -> next_outcome w = (None, answered w).
Proof.
  unfold driver_ok, next_outcome, answered.
  destruct w as [rs ai ck os]; simpl.
  destruct os as [|o os]; simpl; intros H.
  - reflexivity.
  - subst o. reflexivity.
Qed.

Lemma next_outcome_fails w err os :
  outcomes w = Some err :: os -> next_outcome w = (Some err, set_outcomes os w).
Proof. unfold next_outcome. intros ->. reflexivity. Qed.

Lemma answered_rows w : rows (answered w) = rows w.
Proof. reflexivity. Qed.

Lemma answered_NOW w : NOW (answered w) = NOW w.
Proof. reflexivity. Qed.

Lemma Stmt_Exec_ok sql_eq_id st args w :
  driver_ok w ->
  Stmt_Exec sql_eq_id st args w = run_query sql_eq_id (stmt_query st) args (answered w).
Proof.
  intros H. unfold Stmt_Exec, DB_Exec, bind. rewrite (next_outcome_ok w H). reflexivity.
Qed.

Lemma Stmt_Exec_fails sql_eq_id st args w err os :
  outcomes w = Some err :: os ->
  Stmt_Exec sql_eq_id st args w = (inr err, set_outcomes os w).
Proof.
  intros H. unfold Stmt_Exec, DB_Exec, bind.
  rewrite (next_outcome_fails w err os H). reflexivity.
Qed.

(** ** The delete-expired statement *)

(** C3. Executing the delete-expired statement of the store removes
    exactly the rows whose [expires_on] is strictly before [NOW()]: the
    table afterwards is the old table, in the same order, without those
    rows; a row whose [expires_on] is equal to or after [NOW()] is still
    there, unchanged. *)
Theorem purge_expired_exact :
  forall {sc : Securecookie} sql_eq_id (m : MySQLStore) (w : World),
    prepared m ->
    driver_ok w ->
    let (r, w') := Stmt_Exec sql_eq_id (stmtCleanup m) [] w in
    (exists res, r = inl res) /\
    rows w' = List.filter (fun row => NOW w <=? expires_on row) (rows w) /\
    (forall row, In row (rows w') <-> In row (rows w) /\ NOW w <= expires_on row) /\
    (forall row, In row (rows w) -> expires_on row < NOW w -> ~ In row (rows w')).
Proof.
  intros sc sql_eq_id m w (_ & _ & _ & _ & Hc) Hok.
  rewrite (Stmt_Exec_ok _ _ _ _ Hok), Hc. simpl.
  assert (Hf : List.filter (fun r => negb (past_expiry (NOW (answered w)) r)) (rows w)
               = List.filter (fun row => NOW w <=? expires_on row) (rows w)).
  { apply filter_ext. intros r. unfold past_expiry. rewrite answered_NOW.
    destruct (Z.ltb_spec (expires_on r) (NOW w)), (Z.leb_spec (NOW w) (expires_on r));
      simpl; try reflexivity; lia. }
  rewrite Hf.
  split; [eexists; reflexivity|].
  split; [reflexivity|].
  split.
  - intros row. rewrite filter_In, Z.leb_le. reflexivity.
  - intros row _ Hlt Hin. apply filter_In in Hin. destruct Hin as [_ Hle].
    apply Z.leb_le in Hle. lia.
Qed.

Lemma sample_prepared : prepared Sample.store.
Proof. repeat split. Defined.

Lemma purge_expired_exact_witness :
  let w := mkWorld [mkRow 1 "a" 0 0 5; mkRow 2 "b" 0 0 7; mkRow 3 "c" 0 0 9]
                   4 (7 * Second) [] in
  rows (snd (Stmt_Exec Sample.sql_eq_id (stmtCleanup Sample.store) [] w))
  = [mkRow 2 "b" 0 0 7; mkRow 3 "c" 0 0 9].
Proof.
  intros w.
  pose proof (purge_expired_exact Sample.sql_eq_id Sample.store w
                                  sample_prepared eq_refl) as H.
  destruct (Stmt_Exec Sample.sql_eq_id (stmtCleanup Sample.store) [] w) as [r w'].
  destruct H as (_ & H & _). simpl. rewrite H. reflexivity.
Defined.


(** ** Loading a session *)

Lemma Stmt_QueryRow_ok sql_eq_id st tableName idp w :
  stmt_query st = selQ tableName ->
  driver_ok w ->
  Stmt_QueryRow sql_eq_id st idp w
  = (mkSqlRow None (run_select sql_eq_id idp (answered w)), answered w).
Proof.
  intros Hq Hok. unfold Stmt_QueryRow, bind.
  rewrite (next_outcome_ok w Hok), Hq. reflexivity.
Qed.

Lemma run_select_answered sql_eq_id idp w :
  run_select sql_eq_id idp (answered w) = run_select sql_eq_id idp w.
Proof. reflexivity. Qed.

(** C4. When the select finds a row for the identifier of the session
    and that row's [expires_on] is before [NOW()], [load] fails with the
    error "Session expired", which is not the [sql.ErrNoRows] it fails
    with when no row is found; the table is left as it was, and the
    session too.  The flag [load] tests is the third column of the row
    the select returns, [expires_on < NOW()], computed by the server. *)
Theorem load_expired :
  forall {sc : Securecookie} sql_eq_id (m : MySQLStore)
         (session : sessions.Session) (w : World),
    prepared m ->
    driver_ok w ->
    (forall row,
        List.find (fun r => sql_eq_id (id r) (sessions.ID session)) (rows w) = Some row ->
        expires_on row < NOW w ->
        fst (Stmt_QueryRow sql_eq_id (stmtSelect m) (sessions.ID session) w)
        = mkSqlRow None (Some (id row, session_data row, expires_on row <? NOW w)) /\
        load sql_eq_id m session w
        = (session, Some (errorString "Session expired"), answered w) /\
        rows (snd (load sql_eq_id m session w)) = rows w) /\
    (List.find (fun r => sql_eq_id (id r) (sessions.ID session)) (rows w) = None ->
     load sql_eq_id m session w = (session, Some ErrNoRows, answered w)) /\
    errorString "Session expired" <> ErrNoRows.
Proof.
  intros sc sql_eq_id m session w (_ & _ & _ & Hs & _) Hok.
  assert (Hq : stmt_query (stmtSelect m) = selQ (table m)) by (rewrite Hs; reflexivity).
  repeat split.
  - rewrite (Stmt_QueryRow_ok _ _ _ _ _ Hq Hok). simpl.
    unfold run_select. simpl. rewrite H. reflexivity.
  - unfold load, bind. rewrite (Stmt_QueryRow_ok _ _ _ _ _ Hq Hok).
    unfold Scan, run_select. simpl. rewrite H. simpl.
    unfold past_expiry. replace (expires_on row <? NOW (answered w)) with true.
    + reflexivity.
    + symmetry. apply Z.ltb_lt. rewrite answered_NOW. assumption.
  - unfold load, bind. rewrite (Stmt_QueryRow_ok _ _ _ _ _ Hq Hok).
    unfold Scan, run_select. simpl. rewrite H. simpl.
    unfold past_expiry. replace (expires_on row <? NOW (answered w)) with true.
    + reflexivity.
    + symmetry. apply Z.ltb_lt. rewrite answered_NOW. assumption.
  - intros Hnone. unfold load, bind. rewrite (Stmt_QueryRow_ok _ _ _ _ _ Hq Hok).
    unfold Scan, run_select. simpl. rewrite Hnone. reflexivity.
  - discriminate.
Qed.

Lemma load_expired_witness :
  let w := mkWorld [mkRow 1 "sid|user=a;" 0 0 3600] 2 (3601 * Second) [] in
  let session := set_ID "1" (fresh Sample.store "sid") in
  load Sample.sql_eq_id Sample.store session w
  = (session, Some (errorString "Session expired"), w) /\
  load Sample.sql_eq_id Sample.store (set_ID "2" session) w
  = (set_ID "2" session, Some ErrNoRows, w).
Proof.
  intros w session.
  destruct (load_expired Sample.sql_eq_id Sample.store session w
                         sample_prepared eq_refl) as (Hexp & _ & _).
  destruct (load_expired Sample.sql_eq_id Sample.store (set_ID "2" session) w
                         sample_prepared eq_refl) as (_ & Hnone & _).
  split.
  - destruct (Hexp (mkRow 1 "sid|user=a;" 0 0 3600) eq_refl eq_refl) as (_ & H & _).
    exact H.
  - exact (Hnone eq_refl).
Defined.

(** ** Deleting a session *)

Lemma fold_delete_lookup (ks : list string) (vs : gmap string string) (k : string) :
  fold_left (fun vs k => delete k vs) ks vs !! k
  = if decide (k ∈ ks) then None else vs !! k.
Proof.
  revert vs. induction ks as [|k' ks IH]; intros vs; cbn [fold_left].
  - destruct (decide (k ∈ [])) as [Hin|_]; [|reflexivity].
    apply elem_of_nil in Hin. contradiction.
  - rewrite IH.
    destruct (decide (k ∈ ks)) as [Hin|Hnin];
      destruct (decide (k ∈ k' :: ks)) as [Hin'|Hnin']; try reflexivity.
    + exfalso. apply Hnin'. apply elem_of_cons. right. exact Hin.
    + apply elem_of_cons in Hin'. destruct Hin' as [->|Hin']; [|contradiction].
      apply lookup_delete_eq.
    + apply lookup_delete_ne. intros ->. apply Hnin'. apply elem_of_cons. left. reflexivity.
Qed.

(** The loop that deletes every key of the map leaves the empty map. *)
Lemma range_delete_empty (values : gmap string string) : range_delete values = ∅.
Proof.
  apply map_eq. intros k. unfold range_delete.
  rewrite fold_delete_lookup, lookup_empty.
  destruct (decide (k ∈ List.map fst (map_to_list values))) as [Hin|Hnin];
    [reflexivity|].
  destruct (values !! k) as [v|] eqn:Hv; [|reflexivity].
  exfalso. apply Hnin. apply list_elem_of_In, in_map_iff.
  exists (k, v). split; [reflexivity|].
  apply list_elem_of_In, elem_of_map_to_list. exact Hv.
Qed.

(** C10. [Delete] writes the expiring cookie ([MaxAge = -1], empty
    value) and empties the values of the session before it runs the
    delete statement: when that statement fails, [Delete] returns its
    error, and the cookie has been written and the values are gone all
    the same, while the table still has every row. *)
Theorem Delete_not_atomic :
  forall {sc : Securecookie} sql_eq_id (m : MySQLStore) (r : http.Request)
         (w : http.ResponseWriter) (session : sessions.Session)
         (world : World) (delErr : error) (os : list (option error)),
    outcomes world = Some delErr :: os ->
    Delete sql_eq_id m r w session world
    = (http.SetCookie w
         (http.mkCookie (sessions.Name session) ""
                        (sessions.Path (sessions.Options session))
                        (sessions.Domain (sessions.Options session))
                        (-1)
                        (sessions.Secure (sessions.Options session))
                        (sessions.HttpOnly (sessions.Options session))),
       set_Values ∅ session,
       Some delErr,
       set_outcomes os world).
Proof.
  intros sc sql_eq_id m r w session world delErr os Htape.
  unfold Delete, bind.
  rewrite (Stmt_Exec_fails _ _ _ _ _ _ Htape).
  rewrite range_delete_empty. reflexivity.
Qed.

Lemma Delete_not_atomic_witness :
  let world := mkWorld [mkRow 1 "sid|user=a;" 0 0 3600] 2 0
                       [Some (DriverError "driver: bad connection")] in
  let session := set_Values {["user" := "a"]} (set_ID "1" (fresh Sample.store "sid")) in
  let '(w, session', err, world') :=
    Delete Sample.sql_eq_id Sample.store (http.mkRequest []) (http.mkResponseWriter [])
           session world in
  http.SetCookies w = [http.mkCookie "sid" "" "/" "" (-1) false false] /\
  sessions.Values session' = ∅ /\
  err = Some (DriverError "driver: bad connection") /\
  rows world' = rows world.
Proof.
  intros world session.
  rewrite (Delete_not_atomic Sample.sql_eq_id Sample.store (http.mkRequest [])
             (http.mkResponseWriter []) session world
             (DriverError "driver: bad connection") [] eq_refl).
  repeat split.
Defined.


(** ** Creating a session from a request *)

(** A failing [load] hands the session back as it received it. *)
Lemma load_failure_keeps_session {sc : Securecookie} sql_eq_id m session w session' err w' :
  load sql_eq_id m session w = (session', Some err, w') -> session' = session.
Proof.
  unfold load, DecodeMulti_Values, get_clock, bind, ret.
  destruct (Stmt_QueryRow sql_eq_id (stmtSelect m) (sessions.ID session) w) as [row w1].
  destruct (Scan row) as [[[i d] [|]]|scanErr]; try congruence.
  match goal with
  | |- context [decode_Values ?a ?b ?c ?d] => destruct (decode_Values a b c d)
  end; congruence.
Qed.

(** C1, as the code has it. When the request carries the cookie and the
    cookie fails to decode, [New] returns the fresh session (no
    identifier, no values, the options of the store, [IsNew] set)
    together with the error of the decoder.  The error [New] does
    replace by [nil] is the one of [load], once the cookie has decoded:
    then the session carries the decoded identifier and [IsNew] stays
    set. *)
Theorem New_decode_failure :
  forall {sc : Securecookie} sql_eq_id (m : MySQLStore) (r : http.Request)
         (name : string) (w : World) (cook : http.Cookie),
    http.Cookie_ r name = inl cook ->
    (forall err,
        decode_ID (clock w) name (http.Value cook) (Codecs m) = inr err ->
        New sql_eq_id m r name w = (fresh m name, Some err, w)) /\
    (forall decoded session' err w',
        decode_ID (clock w) name (http.Value cook) (Codecs m) = inl decoded ->
        load sql_eq_id m (set_ID decoded (fresh m name)) w = (session', Some err, w') ->
        New sql_eq_id m r name w = (set_ID decoded (fresh m name), None, w')).
Proof.
  intros sc sql_eq_id m r name w cook Hcook. split.
  - intros err Hdec. unfold New, DecodeMulti_ID, get_clock, bind, ret.
    rewrite Hcook, Hdec. reflexivity.
  - intros decoded session' err w' Hdec Hload.
    pose proof (load_failure_keeps_session _ _ _ _ _ _ _ Hload) as ->.
    unfold New, DecodeMulti_ID, get_clock, bind, ret.
    rewrite Hcook, Hdec.
    change (set_ID decoded
              (set_IsNew true
                 (set_Options
                    (sessions.mkOptions (sessions.Path (Options m))
                       (sessions.Domain (Options m)) (sessions.MaxAge (Options m))
                       (sessions.Secure (Options m)) (sessions.HttpOnly (Options m)))
                    (sessions.NewSession name))))
      with (set_ID decoded (fresh m name)).
    rewrite Hload. reflexivity.
Qed.

Lemma New_decode_failure_witness :
  let r := http.mkRequest [http.mkCookie "sid" "tampered" "" "" 0 false false] in
  New Sample.sql_eq_id Sample.store r "sid" Sample.empty_world
  = (fresh Sample.store "sid", Some Sample.not_valid, Sample.empty_world).
Proof.
  intros r.
  exact (proj1 (New_decode_failure Sample.sql_eq_id Sample.store r "sid"
                  Sample.empty_world
                  (http.mkCookie "sid" "tampered" "" "" 0 false false) eq_refl)
               Sample.not_valid eq_refl).
Defined.

(** C1, as it is stated, fails: the request below carries a cookie that
    does not decode, and [New] returns the error of the decoder, not
    [nil]. *)
Lemma New_returns_decoder_error :
  let r := http.mkRequest [http.mkCookie "sid" "tampered" "" "" 0 false false] in
  let w := Sample.empty_world in
  http.Cookie_ r "sid" = inl (http.mkCookie "sid" "tampered" "" "" 0 false false) /\
  decode_ID (clock w) "sid" "tampered" (Codecs Sample.store) = inr Sample.not_valid /\
  snd (fst (New Sample.sql_eq_id Sample.store r "sid" w)) = Some Sample.not_valid /\
  snd (fst (New Sample.sql_eq_id Sample.store r "sid" w)) <> None.
Proof.
  repeat split. discriminate.
Qed.

(** ** Building the store *)

(** The answers of the driver are taken one at a time: [leaf] closes
    the three parts of the statement once the tape is known far enough,
    [answers] walks down the tape. *)
Ltac leaf :=
  split;
  [ first [ left; eexists; split; reflexivity
          | right; split; [reflexivity | eexists; reflexivity] ]
  | split;
    [ let e := fresh "e" in
      let He := fresh "He" in
      let Hn := fresh "Hn" in
      intros e He Hn;
      first [ discriminate He
            | exfalso; injection He as <-; eapply Hn; reflexivity ]
    | intros _;
      first [ split; reflexivity
            | eexists; split; [reflexivity | split; [reflexivity | repeat split]] ] ] ].

Ltac answers n os :=
  lazymatch n with
  | O => idtac
  | S ?n' =>
      let e := fresh "e" in
      destruct os as [|[e|] os]; cbn; [leaf | leaf | answers n' os]
  end.

(** C5. [NewMySQLStoreFromConnection] returns either a store and no
    error, or an error and no store.  A failure of the table creation
    is returned unless it is the MySQL error 1142; after a creation that
    succeeded or failed with 1142, the first failure among the five
    preparations (insert, delete, update, select, cleanup) is returned
    with no store, and without such a failure the store is returned with
    its five statements. *)
Theorem NewMySQLStoreFromConnection_failures :
  forall {sc : Securecookie} sql_eq_id (db : DB) (tableName path : string)
         (maxAge : Z) (keyPairs : list (list Byte.byte)) (w : World),
    let '(store, err, _) :=
      NewMySQLStoreFromConnection sql_eq_id db tableName path maxAge keyPairs w in
    let create := hd None (outcomes w) in
    let prepares := tl (outcomes w) in
    ((exists m, store = Some m /\ err = None) \/
     (store = None /\ exists e, err = Some e)) /\
    (forall e, create = Some e -> (forall msg, e <> MySQLError 1142 msg) ->
               store = None /\ err = Some e) /\
    ((create = None \/ exists msg, create = Some (MySQLError 1142 msg)) ->
     match first_failure 5 prepares with
     | Some e => store = None /\ err = Some e
     | None => exists m, store = Some m /\ err = None /\ prepared m
     end).
Proof.
  intros sc sql_eq_id db tableName path maxAge keyPairs [rs ai ck os].
  unfold NewMySQLStoreFromConnection, DB_Exec, DB_Prepare, bind, ret, next_outcome.
  cbn [outcomes].
  destruct os as [|[e0|] os].
  - cbn. leaf.
  - destruct e0 as [n s| | |s|s|s]; cbn [set_outcomes outcomes hd tl];
      try (split; [right; split; [reflexivity|eexists; reflexivity]|];
           split; [intros e [= <-] _; split; reflexivity|];
           intros [[=]|[msg [=]]]).
    destruct (Z.eqb_spec n 1142) as [->|Hne].
    + answers 5%nat os. cbn. leaf.
    + split; [right; split; [reflexivity|eexists; reflexivity]|].
      split; [intros e [= <-] _; split; reflexivity|].
      intros [[=]|[msg [= Hn _]]]. contradiction.
  - cbn [set_outcomes outcomes hd tl]. answers 5%nat os. cbn. leaf.
Qed.

Lemma NewMySQLStoreFromConnection_failures_witness :
  let w := set_outcomes [Some (MySQLError 1142 "CREATE command denied");
                         None; None; Some (DriverError "driver: bad connection")]
                        Sample.empty_world in
  fst (NewMySQLStoreFromConnection (sc := Sample.codec) Sample.sql_eq_id Conn
                                   "sessions" "/" 3600 Sample.key w)
  = (None, Some (DriverError "driver: bad connection")).
Proof.
  intros w.
  pose proof (NewMySQLStoreFromConnection_failures (sc := Sample.codec)
                Sample.sql_eq_id Conn "sessions" "/" 3600 Sample.key w) as H.
  destruct (NewMySQLStoreFromConnection Sample.sql_eq_id Conn "sessions" "/" 3600
                                        Sample.key w) as [[store err] w'].
  destruct H as (_ & _ & H).
  destruct (H (or_intror (ex_intro _ "CREATE command denied" eq_refl))) as [-> ->].
  reflexivity.
Defined.

Example store_despite_1142 :
  let w := set_outcomes [Some (MySQLError 1142 "CREATE command denied")]
                        Sample.empty_world in
  fst (NewMySQLStoreFromConnection Sample.sql_eq_id Conn "`sessions`" "/" 3600
                                   Sample.key w)
  = (Some Sample.store, None).
Proof. reflexivity. Qed.

Example no_store_on_1044 :
  let w := set_outcomes [Some (MySQLError 1044 "Access denied")]
                        Sample.empty_world in
  fst (NewMySQLStoreFromConnection (sc := Sample.codec) Sample.sql_eq_id Conn
                                   "sessions" "/" 3600 Sample.key w)
  = (None, Some (MySQLError 1044 "Access denied")).
Proof. reflexivity. Qed.

Example no_store_on_failed_select :
  let w := set_outcomes [None; None; None; None; Some (DriverError "bad connection")]
                        Sample.empty_world in
  fst (NewMySQLStoreFromConnection (sc := Sample.codec) Sample.sql_eq_id Conn
                                   "sessions" "/" 3600 Sample.key w)
  = (None, Some (DriverError "bad connection")).
Proof. reflexivity. Qed.

(** ** Saving a session *)

Lemma sample_sql_eq_id_decimal (n k : Z) :
  Sample.sql_eq_id n (Sprintf_d k) = (n =? k).
Proof.
  unfold Sample.sql_eq_id, Sprintf_d.
  rewrite NilZero.isi.
  - rewrite DecimalZ.of_to. apply Z.eqb_sym.
  - destruct k; simpl; try discriminate.
    intros [= H]. exact (DecimalPos.Unsigned.to_uint_nonnil _ H).
  - destruct k; simpl; try discriminate.
    intros [= H]. exact (DecimalPos.Unsigned.to_uint_nonnil _ H).
Defined.

(** With the counter ahead of the table, the select by the decimal
    rendering of the counter finds the row just appended. *)
Lemma find_appended sql_eq_id (rs : list Row) (row : Row) :
  (forall n k, sql_eq_id n (Sprintf_d k) = (n =? k)) ->
  Forall (fun r => id r < id row) rs ->
  List.find (fun r => sql_eq_id (id r) (Sprintf_d (id row))) (rs ++ [row]) = Some row.
Proof.
  intros Hlaw Hall. induction Hall as [|r rs Hr _ IH]; simpl.
  - rewrite Hlaw, Z.eqb_refl. reflexivity.
  - rewrite Hlaw. destruct (Z.eqb_spec (id r) (id row)); [lia|exact IH].
Qed.

(** C7. A [Save] of a session without identifier that succeeds has
    appended one row, whose [id] is the value of the table's counter and
    whose [expires_on] is [NOW()] plus the lifetime of the store, and
    has set the identifier of the session to that [id] in decimal.  A
    [load] under this identifier, on the same table and not after
    [expires_on], yields the values that were saved, provided what the
    codec encoded at the time of the save decodes to these values at the
    time of the load. *)
Theorem Save_then_load_roundtrip :
  forall {sc : Securecookie} sql_eq_id (m : MySQLStore) (r : http.Request)
         (rw rw1 : http.ResponseWriter) (session session1 : sessions.Session)
         (w w1 w2 : World),
    prepared m ->
    (forall n k, sql_eq_id n (Sprintf_d k) = (n =? k)) ->
    counter_ahead w ->
    sessions.ID session = "" ->
    Save sql_eq_id m r rw session w = (rw1, session1, None, w1) ->
    rows w2 = rows w1 ->
    driver_ok w2 ->
    NOW w2 <= NOW w + sessions.MaxAge (Options m) ->
    (forall enc,
        encode_Values (clock w) (sessions.Name session) (sessions.Values session)
                      (Codecs m) = inl enc ->
        decode_Values (clock w2) (sessions.Name session) enc (Codecs m)
        = inl (sessions.Values session)) ->
    sessions.ID session1 = Sprintf_d (auto_increment w) /\
    (exists enc,
        encode_Values (clock w) (sessions.Name session) (sessions.Values session)
                      (Codecs m) = inl enc /\
        rows w1 = (rows w ++ [mkRow (auto_increment w) enc (NOW w) (NOW w)
                                    (NOW w + sessions.MaxAge (Options m))])%list) /\
    (forall reader,
        sessions.ID reader = sessions.ID session1 ->
        sessions.Name reader = sessions.Name session ->
        load sql_eq_id m reader w2
        = (set_Values (sessions.Values session) reader, None, answered w2)).
Proof.
  intros sc sql_eq_id m r rw rw1 session session1 w w1 w2
         (Hi & _ & _ & Hs & _) Hlaw Hahead Hid Hsave Hrows Hok Hlive Hcodec.
  unfold Save in Hsave. rewrite Hid in Hsave. cbn [String.eqb] in Hsave.
  unfold insert, EncodeMulti_Values, EncodeMulti_ID, Stmt_Exec, DB_Exec,
    LastInsertId, get_clock, next_outcome, bind, ret in Hsave.
  rewrite Hi in Hsave. cbn [stmt_query] in Hsave.
  specialize (Hcodec) as Hdec.
  destruct (encode_Values (clock w) (sessions.Name session)
                          (sessions.Values session) (Codecs m)) as [enc|encErr] eqn:Henc;
    [|discriminate Hsave].
  specialize (Hdec enc eq_refl).
  assert (Hresult : sessions.ID session1 = Sprintf_d (auto_increment w) /\
                    rows w1 = (rows w ++ [mkRow (auto_increment w) enc (NOW w) (NOW w)
                                    (NOW w + sessions.MaxAge (Options m))])%list).
  { destruct w as [rs ai ck os]. cbn in Hsave |- *.
    destruct os as [|[e|] os]; cbn in Hsave; try discriminate Hsave.
    - match type of Hsave with
      | context [encode_ID ?a ?b ?c ?d] => destruct (encode_ID a b c d)
      end; [|discriminate Hsave].
      injection Hsave as _ <- <-. split; reflexivity.
    - destruct os as [|[e|] os]; cbn in Hsave; try discriminate Hsave;
        match type of Hsave with
        | context [encode_ID ?a ?b ?c ?d] => destruct (encode_ID a b c d)
        end; try discriminate Hsave;
        injection Hsave as _ <- <-; split; reflexivity. }
  destruct Hresult as [Hid1 Hrows1].
  split; [exact Hid1|].
  split; [exists enc; split; [reflexivity|exact Hrows1]|].
  intros reader Hrid Hname.
  assert (Hq : stmt_query (stmtSelect m) = selQ (table m)) by (rewrite Hs; reflexivity).
  unfold load, DecodeMulti_Values, get_clock, bind, ret.
  rewrite (Stmt_QueryRow_ok _ _ _ _ _ Hq Hok).
  unfold Scan, run_select. cbn [row_err row_cols].
  rewrite answered_rows, Hrows, Hrows1, Hrid, Hid1.
  set (row := mkRow (auto_increment w) enc (NOW w) (NOW w)
                    (NOW w + sessions.MaxAge (Options m))).
  change (auto_increment w) with (id row).
  rewrite (find_appended sql_eq_id (rows w) row Hlaw Hahead).
  unfold past_expiry. rewrite answered_NOW. cbn [expires_on row session_data sess_data].
  destruct (Z.ltb_spec (NOW w + sessions.MaxAge (Options m)) (NOW w2)); [lia|].
  rewrite Hname. change (clock (answered w2)) with (clock w2).
  rewrite Hdec. reflexivity.
Qed.

Lemma Save_then_load_roundtrip_witness :
  let session := set_Values {["user" := "a"]} (fresh Sample.store "sid") in
  let w1 := mkWorld [mkRow 1 "sid|user=a;" 0 0 3600] 2 0 [] in
  let w2 := set_clock (3600 * Second) w1 in
  Save Sample.sql_eq_id Sample.store (http.mkRequest []) (http.mkResponseWriter [])
       session Sample.empty_world
  = (http.mkResponseWriter [http.mkCookie "sid" "sid|1" "/" "" 3600 false false],
     set_ID "1" session, None, w1) /\
  load Sample.sql_eq_id Sample.store (set_ID "1" (fresh Sample.store "sid")) w2
  = (set_Values {["user" := "a"]} (set_ID "1" (fresh Sample.store "sid")), None, w2).
Proof.
  intros session w1 w2.
  assert (Hsave :
            Save Sample.sql_eq_id Sample.store (http.mkRequest [])
                 (http.mkResponseWriter []) session Sample.empty_world
            = (http.mkResponseWriter [http.mkCookie "sid" "sid|1" "/" "" 3600 false false],
               set_ID "1" session, None, w1)) by (vm_compute; reflexivity).
  split; [exact Hsave|].
  assert (Hlive : NOW w2 <= NOW Sample.empty_world
                            + sessions.MaxAge (Options Sample.store))
    by (vm_compute; discriminate).
  assert (Hcodec : forall enc,
             encode_Values (clock Sample.empty_world) (sessions.Name session)
                           (sessions.Values session) (Codecs Sample.store) = inl enc ->
             decode_Values (clock w2) (sessions.Name session) enc (Codecs Sample.store)
             = inl (sessions.Values session)).
  { intros enc Henc. vm_compute in Henc. injection Henc as <-. vm_compute. reflexivity. }
  destruct (Save_then_load_roundtrip Sample.sql_eq_id Sample.store (http.mkRequest [])
              (http.mkResponseWriter []) _ session _ Sample.empty_world w1 w2
              sample_prepared sample_sql_eq_id_decimal (List.Forall_nil _) eq_refl
              Hsave eq_refl eq_refl Hlive Hcodec) as (_ & _ & Hload).
  exact (Hload (set_ID "1" (fresh Sample.store "sid")) eq_refl eq_refl).
Defined.

Lemma same_but_data_refl sql_eq_id idp (rs : list Row) :
  Forall2 (same_but_data sql_eq_id idp) rs rs.
Proof.
  induction rs as [|r rs IH]; constructor; [|exact IH].
  repeat split.
Qed.

Lemma same_but_data_update sql_eq_id now data idp (rs : list Row) :
  Forall2 (same_but_data sql_eq_id idp) rs
          (List.map (update_row sql_eq_id now data idp) rs).
Proof.
  induction rs as [|r rs IH]; simpl; constructor; [|exact IH].
  unfold same_but_data, update_row.
  destruct (sql_eq_id (id r) idp) eqn:Hsel.
  - destruct (String.eqb (session_data r) data); repeat split; discriminate.
  - repeat split.
Qed.

Lemma update_row_data sql_eq_id now data idp (r : Row) :
  sql_eq_id (id r) idp = true ->
  session_data (update_row sql_eq_id now data idp r) = data.
Proof.
  intros Hsel. unfold update_row. rewrite Hsel.
  destruct (String.eqb_spec (session_data r) data) as [Heq|Hne]; [exact Heq|reflexivity].
Qed.

(** C9. A [Save] of a session that has an identifier and is not new
    runs the update statement at most: the table afterwards has the
    same rows in the same order with their [id], [created_on] and
    [expires_on], and a row whose [id] the statement does not select is
    the same row; no row is added and the counter stays.  When the
    values encode and the driver does not fail, the selected rows get
    the encoded values as their [session_data]. *)
Theorem Save_update_frame :
  forall {sc : Securecookie} sql_eq_id (m : MySQLStore) (r : http.Request)
         (rw : http.ResponseWriter) (session : sessions.Session) (w : World),
    prepared m ->
    sessions.ID session <> "" ->
    sessions.IsNew session = false ->
    let w' := snd (Save sql_eq_id m r rw session w) in
    auto_increment w' = auto_increment w /\
    Forall2 (same_but_data sql_eq_id (sessions.ID session)) (rows w) (rows w') /\
    (forall enc,
        encode_Values (clock w) (sessions.Name session) (sessions.Values session)
                      (Codecs m) = inl enc ->
        driver_ok w ->
        rows w' = List.map (update_row sql_eq_id (NOW w) enc (sessions.ID session))
                           (rows w) /\
        Forall2 (fun old new =>
                   sql_eq_id (id old) (sessions.ID session) = true ->
                   session_data new = enc /\ expires_on new = expires_on old)
                (rows w) (rows w')).
Proof.
  intros sc sql_eq_id m r rw session w (_ & _ & Hu & _ & _) Hid Hold.
  assert (Hmap : forall enc now,
             Forall2 (fun old new =>
                        sql_eq_id (id old) (sessions.ID session) = true ->
                        session_data new = enc /\ expires_on new = expires_on old)
                     (rows w)
                     (List.map (update_row sql_eq_id now enc (sessions.ID session))
                               (rows w))).
  { intros enc now. induction (rows w) as [|x xs IH]; simpl; constructor; [|exact IH].
    intros Hsel. split; [apply update_row_data; exact Hsel|].
    unfold update_row. rewrite Hsel.
    destruct (String.eqb (session_data x) enc); reflexivity. }
  unfold Save. apply String.eqb_neq in Hid. rewrite Hid.
  unfold save. rewrite Hold.
  unfold EncodeMulti_Values, EncodeMulti_ID, Stmt_Exec, DB_Exec, get_clock,
    next_outcome, bind, ret.
  rewrite Hu. cbn [stmt_query].
  destruct (encode_Values (clock w) (sessions.Name session)
                          (sessions.Values session) (Codecs m)) as [enc|encErr].
  - destruct w as [rs ai ck os]. unfold driver_ok. cbn.
    destruct os as [|[e|] os]; cbn.
    + match goal with
      | |- context [encode_ID ?a ?b ?c ?d] => destruct (encode_ID a b c d)
      end; cbn;
        (split; [reflexivity|]; split; [apply same_but_data_update|];
         intros enc' [= <-] _; split; [reflexivity|apply (Hmap enc)]).
    + split; [reflexivity|]. split; [apply same_but_data_refl|].
      intros enc' _ [=].
    + match goal with
      | |- context [encode_ID ?a ?b ?c ?d] => destruct (encode_ID a b c d)
      end; cbn;
        (split; [reflexivity|]; split; [apply same_but_data_update|];
         intros enc' [= <-] _; split; [reflexivity|apply (Hmap enc)]).
  - cbn. split; [reflexivity|]. split; [apply same_but_data_refl|].
    intros enc [=].
Qed.

Lemma Save_update_frame_witness :
  let w := mkWorld [mkRow 1 "sid|user=a;" 0 0 3600; mkRow 2 "sid|user=b;" 5 5 3605]
                   3 (60 * Second) [] in
  let session := set_IsNew false (set_Values {["user" := "c"]}
                                             (set_ID "2" (fresh Sample.store "sid"))) in
  rows (snd (Save Sample.sql_eq_id Sample.store (http.mkRequest [])
                  (http.mkResponseWriter []) session w))
  = [mkRow 1 "sid|user=a;" 0 0 3600; mkRow 2 "sid|user=c;" 5 60 3605].
Proof.
  intros w session.
  destruct (Save_update_frame Sample.sql_eq_id Sample.store (http.mkRequest [])
              (http.mkResponseWriter []) session w sample_prepared
              ltac:(discriminate) eq_refl) as (_ & _ & H).
  destruct (H "sid|user=c;" ltac:(vm_compute; reflexivity) eq_refl) as [Hrows _].
  rewrite Hrows. vm_compute. reflexivity.
Defined.


(** ** The sweeper *)

Lemma defaultInterval_positive : 0 < defaultInterval.
Proof. reflexivity. Qed.

Lemma Cleanup_inv interval w :
  loop_inv (Cleanup interval w) /\ handshake_inv (Cleanup interval w).
Proof.
  unfold Cleanup, loop_inv, handshake_inv. cbn.
  destruct (Z.leb_spec interval 0).
  - repeat split.
  - repeat split. assumption.
Qed.

Lemma step_inv {sc : Securecookie} sql_eq_id m e s s' :
  loop_inv s /\ handshake_inv s ->
  step sql_eq_id m e s = Some s' ->
  loop_inv s' /\ handshake_inv s'.
Proof.
  destruct s as [w tk tkr ow lg sw].
  unfold loop_inv, handshake_inv.
  intros [Hl Hh] Hstep.
  destruct e; cbn in Hstep.
  - (* Elapse *)
    destruct (d <? 0); [discriminate|]. injection Hstep as <-. cbn in *. tauto.
  - (* Fire *)
    destruct tkr as [[p n c st]|]; [|discriminate]. cbn in Hstep.
    destruct st; cbn in Hstep; [discriminate|].
    destruct (n <=? clock w); [|discriminate].
    injection Hstep as <-. cbn in *. split; [|exact Hh].
    destruct tk; try tauto;
      try (destruct Hl as (t & [= <-] & Hst & Hp); eexists; repeat split; assumption).
    + destruct Hl; discriminate.
    + destruct Hl as (t & [= <-] & Hst). cbn in Hst. discriminate.
  - (* Run *)
    unfold cleanup_run in Hstep. cbn in Hstep.
    destruct tk; try discriminate; cbn in *.
    + unfold NewTicker in Hstep. destruct Hl as [Hpos ->].
      destruct (Z.leb_spec interval 0); [lia|].
      injection Hstep as <-. cbn.
      split; [eexists; repeat split; assumption|].
      destruct ow; cbn in *; intuition congruence.
    + destruct (Stmt_Exec sql_eq_id (stmtCleanup m) [] w) as [[res|err] w1];
        injection Hstep as <-; cbn; (split; [exact Hl|]);
        destruct ow; cbn in *; intuition congruence.
    + injection Hstep as <-. cbn.
      destruct Hl as (t & -> & Hst & Hp). cbn.
      split; [eexists; split; reflexivity|].
      destruct ow; cbn in *; intuition congruence.
  - (* RecvTick *)
    destruct tk; try discriminate.
    destruct tkr as [[p n c st]|]; [|discriminate]. cbn in Hstep.
    destruct c; [|discriminate]. injection Hstep as <-. cbn in *.
    destruct Hl as (t & [= <-] & Hst & Hp).
    split; [eexists; repeat split; assumption|].
    destruct ow; cbn in *; intuition congruence.
  - (* CallStop *)
    destruct ow; try discriminate. injection Hstep as <-. cbn in *. tauto.
  - (* Quit *)
    destruct ow; try discriminate. destruct tk; try discriminate.
    injection Hstep as <-. cbn in *. tauto.
  - (* Done *)
    destruct ow; try discriminate. destruct tk; try discriminate.
    injection Hstep as <-. cbn in *. tauto.
Qed.

Lemma run_inv {sc : Securecookie} sql_eq_id m es :
  forall s s',
    loop_inv s /\ handshake_inv s ->
    run sql_eq_id m es s = Some s' ->
    loop_inv s' /\ handshake_inv s'.
Proof.
  induction es as [|e es IH]; intros s s' Hinv Hrun; cbn in Hrun.
  - injection Hrun as <-. exact Hinv.
  - destruct (step sql_eq_id m e s) as [s1|] eqn:Hstep; [|discriminate].
    apply (IH s1 s'); [|exact Hrun].
    apply (step_inv sql_eq_id m e s s1 Hinv Hstep).
Qed.

Lemma run_app {sc : Securecookie} sql_eq_id m es es' s :
  run sql_eq_id m (es ++ es') s
  = match run sql_eq_id m es s with
    | Some s1 => run sql_eq_id m es' s1
    | None => None
    end.
Proof.
  revert s. induction es as [|e es IH]; intros s; cbn.
  - reflexivity.
  - destruct (step sql_eq_id m e s); [apply IH|reflexivity].
Qed.

(** C8. [Cleanup] with an interval that is not positive starts the
    sweeper in the state [Cleanup] with [defaultInterval] starts it in,
    so every schedule runs the same from both; the ticker the goroutine
    then creates has the period of [defaultInterval], five minutes. *)
Theorem Cleanup_default_interval :
  forall {sc : Securecookie} sql_eq_id (m : MySQLStore) (interval : Z) (w : World),
    interval <= 0 ->
    Cleanup interval w = Cleanup defaultInterval w /\
    (forall es, run sql_eq_id m es (Cleanup interval w)
                = run sql_eq_id m es (Cleanup defaultInterval w)) /\
    step sql_eq_id m Run (Cleanup interval w)
    = Some (mkSystem w Selecting
                     (Some (mkTicker defaultInterval (clock w + defaultInterval)
                                     false false))
                     Holding [] 0) /\
    defaultInterval = 5 * 60 * 1000000000.
Proof.
  intros sc sql_eq_id m interval w Hle.
  assert (Heq : Cleanup interval w = Cleanup defaultInterval w).
  { unfold Cleanup. destruct (Z.leb_spec interval 0); [|lia]. reflexivity. }
  split; [exact Heq|].
  split; [intros es; rewrite Heq; reflexivity|].
  split; [rewrite Heq; reflexivity|reflexivity].
Qed.

Lemma Cleanup_default_interval_witness :
  Cleanup (-3) Sample.empty_world = Cleanup defaultInterval Sample.empty_world /\
  Cleanup 0 Sample.empty_world = Cleanup (5 * Minute) Sample.empty_world.
Proof.
  split.
  - exact (proj1 (Cleanup_default_interval Sample.sql_eq_id Sample.store (-3)
                    Sample.empty_world ltac:(discriminate))).
  - reflexivity.
Defined.

(** C6. In a state of the running loop where a tick waits in the
    channel of the ticker and the delete-expired statement is going to
    fail: the goroutine takes the tick, runs the statement, appends the
    error to the log and is back in its [select]; the owner of the
    channels stands where it stood and the table is as it was.  Once the
    next tick is due, the goroutine takes it and runs the statement
    again. *)
Theorem cleanup_survives_failed_purge :
  forall {sc : Securecookie} sql_eq_id (m : MySQLStore) (interval : Z) (w : World)
         (es : list event) (s : System) (t : Ticker) (err : error)
         (os : list (option error)),
    run sql_eq_id m es (Cleanup interval w) = Some s ->
    task s = Selecting ->
    ticker s = Some t ->
    C t = true ->
    outcomes (world s) = Some err :: os ->
    exists s1,
      run sql_eq_id m [RecvTick; Run] s = Some s1 /\
      task s1 = Selecting /\
      owner s1 = owner s /\
      log s1 = (log s ++ [log_entry err])%list /\
      rows (world s1) = rows (world s) /\
      sweeps s1 = S (sweeps s) /\
      forall d, 0 <= d -> next_tick t <= clock (world s) + d ->
        exists s2,
          run sql_eq_id m [Elapse d; Fire; RecvTick; Run] s1 = Some s2 /\
          task s2 = Selecting /\
          sweeps s2 = S (S (sweeps s)).
Proof.
  intros sc sql_eq_id m interval w es s t err os Hrun Htask Htick HC Htape.
  destruct (run_inv sql_eq_id m es _ _ (Cleanup_inv interval w) Hrun) as [Hl _].
  unfold loop_inv in Hl. rewrite Htask, Htick in Hl.
  destruct Hl as (t' & [= <-] & Hst & _).
  destruct s as [ws tk tkr ow lg sw]. cbn in Htask, Htick, Htape. subst tk tkr.
  destruct t as [p n c st]. cbn in HC, Hst. subst c st.
  cbn [run step task ticker C world owner log sweeps period next_tick stopped].
  unfold cleanup_run. cbn [task world ticker owner log sweeps].
  rewrite (Stmt_Exec_fails _ _ _ _ _ _ Htape).
  eexists. split; [reflexivity|].
  cbn [task owner log world sweeps].
  repeat (split; [reflexivity|]).
  intros d Hd Hdue.
  cbn [run step world ticker task owner log sweeps].
  destruct (Z.ltb_spec d 0); [lia|].
  cbn [ticker stopped next_tick negb andb world set_clock clock task C period
       owner log sweeps].
  destruct (Z.leb_spec n (clock (set_outcomes os ws) + d)) as [_|Hlt];
    [|cbn in Hlt; lia].
  cbn [task ticker C]. unfold cleanup_run. cbn [task world ticker owner log sweeps].
  destruct (Stmt_Exec sql_eq_id (stmtCleanup m) []
              (set_clock (clock (set_outcomes os ws) + d) (set_outcomes os ws)))
    as [[res|err'] w'];
    eexists; repeat split.
Qed.

Lemma cleanup_survives_failed_purge_witness :
  let w := mkWorld [mkRow 1 "sid|user=a;" 0 0 5] 2 0
                   [Some (DriverError "driver: bad connection")] in
  let s := mkSystem (set_clock (10 * Second) w) Selecting
                    (Some (mkTicker (10 * Second) (20 * Second) true false))
                    Holding [] 0 in
  run Sample.sql_eq_id Sample.store [Run; Elapse (10 * Second); Fire]
      (Cleanup (10 * Second) w) = Some s /\
  exists s1,
    run Sample.sql_eq_id Sample.store [RecvTick; Run] s = Some s1 /\
    task s1 = Selecting /\
    owner s1 = owner s /\
    log s1 = (log s ++ [log_entry (DriverError "driver: bad connection")])%list /\
    rows (world s1) = rows (world s) /\
    sweeps s1 = S (sweeps s) /\
    forall d, 0 <= d -> 20 * Second <= clock (world s) + d ->
      exists s2,
        run Sample.sql_eq_id Sample.store [Elapse d; Fire; RecvTick; Run] s1 = Some s2 /\
        task s2 = Selecting /\
        sweeps s2 = S (S (sweeps s)).
Proof.
  intros w s.
  assert (Hpre : run Sample.sql_eq_id Sample.store [Run; Elapse (10 * Second); Fire]
                     (Cleanup (10 * Second) w) = Some s) by reflexivity.
  split; [exact Hpre|].
  exact (cleanup_survives_failed_purge Sample.sql_eq_id Sample.store
           (10 * Second) w _ s _ (DriverError "driver: bad connection") []
           Hpre eq_refl eq_refl eq_refl eq_refl).
Defined.

(** ** Stopping the sweeper *)

(** Once the owner is back from [StopCleanup], no event moves the
    goroutine into its loop again. *)
Lemma step_after_return {sc : Securecookie} sql_eq_id m e s s' :
  owner s = Returned ->
  task s = Returning \/ task s = Exited ->
  step sql_eq_id m e s = Some s' ->
  owner s' = Returned /\
  (task s' = Returning \/ task s' = Exited) /\
  sweeps s' = sweeps s /\
  rows (world s') = rows (world s) /\
  log s' = log s.
Proof.
  destruct s as [w tk tkr ow lg sw]. cbn [owner task].
  intros -> Htask Hstep.
  destruct e; cbn in Hstep.
  - destruct (d <? 0); [discriminate|]. injection Hstep as <-. cbn. tauto.
  - destruct tkr as [t|]; [|discriminate].
    destruct (negb (stopped t) && (next_tick t <=? clock w)); [|discriminate].
    injection Hstep as <-. cbn. tauto.
  - unfold cleanup_run in Hstep. cbn in Hstep.
    destruct Htask as [-> | ->]; [|discriminate].
    injection Hstep as <-. cbn. tauto.
  - destruct Htask as [-> | ->]; discriminate.
  - discriminate.
  - discriminate.
  - discriminate.
Qed.

Lemma run_after_return {sc : Securecookie} sql_eq_id m es :
  forall s s',
    owner s = Returned ->
    task s = Returning \/ task s = Exited ->
    run sql_eq_id m es s = Some s' ->
    owner s' = Returned /\
    (task s' = Returning \/ task s' = Exited) /\
    sweeps s' = sweeps s /\
    rows (world s') = rows (world s) /\
    log s' = log s.
Proof.
  induction es as [|e es IH]; intros s s' Hown Htask Hrun; cbn in Hrun.
  - injection Hrun as <-. repeat split; assumption.
  - destruct (step sql_eq_id m e s) as [s1|] eqn:Hstep; [|discriminate].
    destruct (step_after_return sql_eq_id m e s s1 Hown Htask Hstep)
      as (Hown1 & Htask1 & Hsw & Hrows & Hlog).
    destruct (IH s1 s' Hown1 Htask1 Hrun) as (Hown' & Htask' & Hsw' & Hrows' & Hlog').
    repeat split; try assumption; congruence.
Qed.

(** C2, as the code has it. In every state the sweeper can reach in
    which [StopCleanup] has returned, the goroutine has left its loop:
    it has taken the quit signal and sent [done], and it is at its
    [return] or has exited.  From there on no schedule makes it run the
    delete-expired statement, change the table or write to the log.
    The ticker is stopped by the deferred call, which the goroutine runs
    after it has sent [done]: while it is at its [return] the ticker is
    still running, and its next statement stops it. *)
Theorem StopCleanup_returned :
  forall {sc : Securecookie} sql_eq_id (m : MySQLStore) (interval : Z) (w : World)
         (es : list event) (s : System),
    run sql_eq_id m es (Cleanup interval w) = Some s ->
    owner s = Returned ->
    (task s = Returning \/ task s = Exited) /\
    (task s = Returning ->
     exists t, ticker s = Some t /\ stopped t = false /\
               step sql_eq_id m Run s
               = Some (mkSystem (world s) Exited (Some (Ticker_Stop t)) Returned
                                (log s) (sweeps s))) /\
    (task s = Exited -> exists t, ticker s = Some t /\ stopped t = true) /\
    (forall es' s',
        run sql_eq_id m es' s = Some s' ->
        owner s' = Returned /\
        (task s' = Returning \/ task s' = Exited) /\
        sweeps s' = sweeps s /\
        rows (world s') = rows (world s) /\
        log s' = log s).
Proof.
  intros sc sql_eq_id m interval w es s Hrun Hown.
  destruct (run_inv sql_eq_id m es _ _ (Cleanup_inv interval w) Hrun) as [Hl Hh].
  unfold handshake_inv in Hh. rewrite Hown in Hh.
  split; [exact Hh|].
  split; [|split].
  - intros Htask. unfold loop_inv in Hl. rewrite Htask in Hl.
    destruct Hl as (t & Ht & Hst & _). exists t.
    repeat split; try assumption.
    destruct s as [ws tk tkr ow lg sw]. cbn in *. subst.
    reflexivity.
  - intros Htask. unfold loop_inv in Hl. rewrite Htask in Hl. exact Hl.
  - intros es' s' Hrun'.
    exact (run_after_return sql_eq_id m es' s s' Hown Hh Hrun').
Qed.

Lemma StopCleanup_returned_witness :
  let w := mkWorld [mkRow 1 "sid|user=a;" 0 0 5] 2 0 [] in
  let s := mkSystem w Returning
                    (Some (mkTicker (10 * Second) (10 * Second) false false))
                    Returned [] 0 in
  run Sample.sql_eq_id Sample.store [Run; CallStop; Quit; Done]
      (Cleanup (10 * Second) w) = Some s /\
  forall es' s',
    run Sample.sql_eq_id Sample.store es' s = Some s' ->
    owner s' = Returned /\
    (task s' = Returning \/ task s' = Exited) /\
    sweeps s' = sweeps s /\
    rows (world s') = rows (world s) /\
    log s' = log s.
Proof.
  intros w s.
  assert (Hrun : run Sample.sql_eq_id Sample.store [Run; CallStop; Quit; Done]
                     (Cleanup (10 * Second) w) = Some s) by reflexivity.
  split; [exact Hrun|].
  exact (proj2 (proj2 (proj2
           (StopCleanup_returned Sample.sql_eq_id Sample.store (10 * Second) w
              [Run; CallStop; Quit; Done] s Hrun eq_refl)))).
Defined.

(** C2, as it is stated, fails: after the schedule below [StopCleanup]
    has returned, and the goroutine has not terminated and its ticker
    has not been stopped; time can still pass and the runtime can still
    deliver a tick into the channel of the ticker. *)
Lemma StopCleanup_returns_before_exit :
  let w := mkWorld [mkRow 1 "sid|user=a;" 0 0 5] 2 0 [] in
  let t := mkTicker (10 * Second) (10 * Second) false false in
  run Sample.sql_eq_id Sample.store [Run; CallStop; Quit; Done]
      (Cleanup (10 * Second) w)
  = Some (mkSystem w Returning (Some t) Returned [] 0) /\
  Returning <> Exited /\
  stopped t = false /\
  run Sample.sql_eq_id Sample.store
      [Run; CallStop; Quit; Done; Elapse (10 * Second); Fire]
      (Cleanup (10 * Second) w)
  = Some (mkSystem (set_clock (10 * Second) w) Returning
                   (Some (mkTicker (10 * Second) (20 * Second) true false))
                   Returned [] 0).
Proof.
  repeat split. discriminate.
Qed.


(** * Further properties of the store *)

(** ** What a call keeps of the world *)

Lemma preserves_ret {A} (P : World -> Prop) (a : A) : preserves P (ret a).
Proof. intros w H. exact H. Qed.

Lemma preserves_bind {A B} (P : World -> Prop) (c : M A) (k : A -> M B) :
  preserves P c -> (forall a, preserves P (k a)) -> preserves P (bind c k).
Proof.
  intros Hc Hk w H. unfold bind.
  specialize (Hc w H). destruct (c w) as [a w1]. cbn in Hc.
  exact (Hk a w1 Hc).
Qed.

Lemma preserves_get_clock (P : World -> Prop) : preserves P get_clock.
Proof. intros w H. exact H. Qed.

(** A property that does not look at the tape survives the driver
    taking an answer from it. *)
Lemma preserves_next_outcome (P : World -> Prop) :
  (forall w os, P w -> P (set_outcomes os w)) -> preserves P next_outcome.
Proof.
  intros Htape w H. unfold next_outcome.
  destruct (outcomes w) as [|o os]; cbn; [exact H|apply Htape; exact H].
Qed.

Lemma counter_ahead_tape w os : counter_ahead w -> counter_ahead (set_outcomes os w).
Proof. intros H. exact H. Qed.

Lemma same_table_tape w0 w os : same_table w0 w -> same_table w0 (set_outcomes os w).
Proof. intros H. exact H. Qed.

Lemma Forall_filter_keep {A} (P : A -> Prop) (f : A -> bool) (l : list A) :
  Forall P l -> Forall P (List.filter f l).
Proof.
  intros H. apply List.Forall_forall. intros x Hx.
  apply filter_In in Hx. destruct Hx as [Hx _].
  exact (proj1 (List.Forall_forall P l) H x Hx).
Qed.

Lemma update_row_id sql_eq_id now data idp r :
  id (update_row sql_eq_id now data idp r) = id r.
Proof.
  unfold update_row.
  destruct (sql_eq_id (id r) idp); [|reflexivity].
  destruct (String.eqb (session_data r) data); reflexivity.
Qed.

Lemma update_row_expires sql_eq_id now data idp r :
  expires_on (update_row sql_eq_id now data idp r) = expires_on r.
Proof.
  unfold update_row.
  destruct (sql_eq_id (id r) idp); [|reflexivity].
  destruct (String.eqb (session_data r) data); reflexivity.
Qed.

(** Whatever the statement and its parameters, the server leaves every
    identifier below the counter, and neither the clock nor the tape is
    its to change. *)
Lemma run_query_counter_ahead sql_eq_id q args w :
  counter_ahead w -> counter_ahead (snd (run_query sql_eq_id q args w)).
Proof.
  intros H. unfold counter_ahead in *.
  destruct q; destruct args as [|a [|b [|c args]]]; cbn; try exact H.
  - apply List.Forall_app. split.
    + eapply List.Forall_impl; [|exact H]. cbn. intros r Hr. lia.
    + constructor; [cbn; lia|constructor].
  - apply Forall_filter_keep. exact H.
  - apply List.Forall_forall. intros r Hr. apply in_map_iff in Hr.
    destruct Hr as (r0 & <- & Hr0). rewrite update_row_id.
    exact (proj1 (List.Forall_forall _ _) H r0 Hr0).
  - apply Forall_filter_keep. exact H.
Qed.

Lemma run_query_clock sql_eq_id q args w :
  clock (snd (run_query sql_eq_id q args w)) = clock w /\
  outcomes (snd (run_query sql_eq_id q args w)) = outcomes w /\
  auto_increment w <= auto_increment (snd (run_query sql_eq_id q args w)).
Proof.
  destruct q; destruct args as [|a [|b [|c args]]]; cbn; repeat split; lia.
Qed.

Lemma preserves_Stmt_Exec sql_eq_id st args :
  preserves counter_ahead (Stmt_Exec sql_eq_id st args).
Proof.
  unfold Stmt_Exec, DB_Exec. apply preserves_bind.
  - apply preserves_next_outcome. intros w os H. exact H.
  - intros [err|]; [apply preserves_ret|].
    intros w H. apply run_query_counter_ahead. exact H.
Qed.

Lemma preserves_LastInsertId (P : World -> Prop) res :
  (forall w os, P w -> P (set_outcomes os w)) -> preserves P (LastInsertId res).
Proof.
  intros Htape. unfold LastInsertId. apply preserves_bind.
  - apply preserves_next_outcome. exact Htape.
  - intros [err|]; apply preserves_ret.
Qed.

Lemma preserves_Stmt_QueryRow (P : World -> Prop) sql_eq_id st idp :
  (forall w os, P w -> P (set_outcomes os w)) ->
  preserves P (Stmt_QueryRow sql_eq_id st idp).
Proof.
  intros Htape. unfold Stmt_QueryRow. apply preserves_bind.
  - apply preserves_next_outcome. exact Htape.
  - intros [err|]; [apply preserves_ret|].
    destruct (stmt_query st); try apply preserves_ret.
    intros w H. exact H.
Qed.

Section Keeps.

Context {sc : Securecookie}.
Variable sql_eq_id : Z -> string -> bool.
Variable m : MySQLStore.

Lemma preserves_load (P : World -> Prop) session :
  (forall w os, P w -> P (set_outcomes os w)) ->
  preserves P (load sql_eq_id m session).
Proof.
  intros Htape. unfold load. apply preserves_bind.
  - apply preserves_Stmt_QueryRow. exact Htape.
  - intros row. destruct (Scan row) as [[[i d] [|]]|scanErr]; try apply preserves_ret.
    unfold DecodeMulti_Values. apply preserves_bind.
    + apply preserves_bind; [apply preserves_get_clock|intros; apply preserves_ret].
    + intros [v|e]; apply preserves_ret.
Qed.

Lemma preserves_New (P : World -> Prop) r name :
  (forall w os, P w -> P (set_outcomes os w)) ->
  preserves P (New sql_eq_id m r name).
Proof.
  intros Htape. unfold New.
  destruct (http.Cookie_ r name) as [cook|e]; [|apply preserves_ret].
  apply preserves_bind.
  - unfold DecodeMulti_ID.
    apply preserves_bind; [apply preserves_get_clock|intros; apply preserves_ret].
  - intros [decoded|e]; [|apply preserves_ret].
    apply preserves_bind; [apply preserves_load; exact Htape|].
    intros [session [e|]]; apply preserves_ret.
Qed.

Lemma preserves_insert session : preserves counter_ahead (insert sql_eq_id m session).
Proof.
  unfold insert. apply preserves_bind.
  - unfold EncodeMulti_Values.
    apply preserves_bind; [apply preserves_get_clock|intros; apply preserves_ret].
  - intros [encoded|e]; [|apply preserves_ret].
    apply preserves_bind; [apply preserves_Stmt_Exec|].
    intros [res|e]; [|apply preserves_ret].
    apply preserves_bind.
    + apply preserves_LastInsertId. intros w os H. exact H.
    + intros [n|e]; apply preserves_ret.
Qed.

Lemma preserves_save session : preserves counter_ahead (save sql_eq_id m session).
Proof.
  unfold save. destruct (sessions.IsNew session); [apply preserves_insert|].
  apply preserves_bind.
  - unfold EncodeMulti_Values.
    apply preserves_bind; [apply preserves_get_clock|intros; apply preserves_ret].
  - intros [encoded|e]; [|apply preserves_ret].
    apply preserves_bind; [apply preserves_Stmt_Exec|].
    intros [res|e]; apply preserves_ret.
Qed.

Lemma preserves_Save r rw session :
  preserves counter_ahead (Save sql_eq_id m r rw session).
Proof.
  unfold Save. apply preserves_bind.
  - destruct (String.eqb (sessions.ID session) "");
      [apply preserves_insert|apply preserves_save].
  - intros [session' [e|]]; [apply preserves_ret|].
    apply preserves_bind.
    + unfold EncodeMulti_ID.
      apply preserves_bind; [apply preserves_get_clock|intros; apply preserves_ret].
    + intros [encoded|e]; apply preserves_ret.
Qed.

Lemma preserves_Delete r rw session :
  preserves counter_ahead (Delete sql_eq_id m r rw session).
Proof.
  unfold Delete. apply preserves_bind; [apply preserves_Stmt_Exec|].
  intros [res|e]; apply preserves_ret.
Qed.

End Keeps.

(** X1. Identifiers stay below the counter of the table through every
    call of the store, whatever the driver answers: [Save], [Delete],
    [New] and the delete-expired statement all keep this, so a later
    insert never meets an identifier that is in use. *)
Theorem store_keeps_counter_ahead :
  forall {sc : Securecookie} sql_eq_id (m : MySQLStore) (r : http.Request)
         (rw : http.ResponseWriter) (session : sessions.Session) (name : string)
         (w : World),
    counter_ahead w ->
    counter_ahead (snd (Save sql_eq_id m r rw session w)) /\
    counter_ahead (snd (Delete sql_eq_id m r rw session w)) /\
    counter_ahead (snd (New sql_eq_id m r name w)) /\
    counter_ahead (snd (Stmt_Exec sql_eq_id (stmtCleanup m) [] w)).
Proof.
  intros sc sql_eq_id m r rw session name w H.
  split; [apply preserves_Save; exact H|].
  split; [apply preserves_Delete; exact H|].
  split; [apply preserves_New; [intros w' os H'; exact H'|exact H]|].
  apply preserves_Stmt_Exec. exact H.
Qed.

Lemma store_keeps_counter_ahead_witness :
  let w := mkWorld [mkRow 1 "sid|user=a;" 0 0 3600; mkRow 4 "sid|user=b;" 5 5 3605]
                   5 0 [] in
  let session := set_Values {["user" := "c"]} (fresh Sample.store "sid") in
  counter_ahead (snd (Save Sample.sql_eq_id Sample.store (http.mkRequest [])
                           (http.mkResponseWriter []) session w)).
Proof.
  intros w session.
  assert (H : counter_ahead w).
  { repeat constructor. }
  exact (proj1 (store_keeps_counter_ahead Sample.sql_eq_id Sample.store
                  (http.mkRequest []) (http.mkResponseWriter []) session "sid" w H)).
Defined.

(** ** [New] *)

Lemma same_table_refl w : same_table w w.
Proof. repeat split. Qed.

(** [load] gives the session back with new values, or as it was. *)
Lemma load_success_sets_values {sc : Securecookie} sql_eq_id m session w session' w' :
  load sql_eq_id m session w = (session', None, w') ->
  exists values, session' = set_Values values session.
Proof.
  unfold load, DecodeMulti_Values, get_clock, bind, ret.
  destruct (Stmt_QueryRow sql_eq_id (stmtSelect m) (sessions.ID session) w) as [row w1].
  destruct (Scan row) as [[[i d] [|]]|scanErr]; try congruence.
  match goal with
  | |- context [decode_Values ?a ?b ?c ?d] => destruct (decode_Values a b c d) as [v|e]
  end; [|congruence].
  intros [= <- _]. exists v. reflexivity.
Qed.

(** X2. A request without the cookie of that name gets the
    fresh session of the store ([IsNew] set, no identifier, no values)
    and no error, and nothing is asked of the database: [New] does not
    take an answer of the driver. *)
Theorem New_without_cookie :
  forall {sc : Securecookie} sql_eq_id (m : MySQLStore) (r : http.Request)
         (name : string) (w : World),
    (forall c, In c (http.Cookies r) -> http.Name c <> name) ->
    New sql_eq_id m r name w = (fresh m name, None, w).
Proof.
  intros sc sql_eq_id m r name w Hnone.
  unfold New, http.Cookie_.
  destruct (List.find (fun c => String.eqb (http.Name c) name) (http.Cookies r))
    as [c|] eqn:Hfind; [|reflexivity].
  apply List.find_some in Hfind. destruct Hfind as [Hin Heq].
  apply String.eqb_eq in Heq. exfalso. exact (Hnone c Hin Heq).
Qed.

Lemma New_without_cookie_witness :
  let r := http.mkRequest [http.mkCookie "lang" "en" "" "" 0 false false] in
  New Sample.sql_eq_id Sample.store r "sid" Sample.empty_world
  = (fresh Sample.store "sid", None, Sample.empty_world).
Proof.
  intros r.
  apply (New_without_cookie Sample.sql_eq_id Sample.store r "sid" Sample.empty_world).
  intros c [<-|[]]. discriminate.
Defined.

(** X3. Whatever the request and the state of the database, [New]
    returns a session with the given name and the options of the store,
    and leaves the table, its counter and the clock as they are.  An
    error it returns is the error of the cookie decoder, and then the
    session is the fresh one; no error of the database comes out of
    [New].  A session it returns with [IsNew] cleared comes with no
    error and carries the identifier decoded from the cookie. *)
Theorem New_error_is_decoder_error :
  forall {sc : Securecookie} sql_eq_id (m : MySQLStore) (r : http.Request)
         (name : string) (w : World),
    let '(session, err, w') := New sql_eq_id m r name w in
    sessions.name session = name /\
    sessions.Options session = sessions.Options (fresh m name) /\
    same_table w w' /\
    (forall e, err = Some e ->
               session = fresh m name /\
               exists cook, http.Cookie_ r name = inl cook /\
                            decode_ID (clock w) name (http.Value cook) (Codecs m) = inr e) /\
    (sessions.IsNew session = false ->
     err = None /\
     exists cook, http.Cookie_ r name = inl cook /\
                  decode_ID (clock w) name (http.Value cook) (Codecs m)
                  = inl (sessions.ID session)).
Proof.
  intros sc sql_eq_id m r name w.
  pose proof (preserves_New sql_eq_id m (same_table w) r name
                (fun w' os H => H) w (same_table_refl w)) as Hsame.
  revert Hsame. unfold New, DecodeMulti_ID, get_clock, bind, ret.
  destruct (http.Cookie_ r name) as [cook|e0]; cbn.
  - destruct (decode_ID (clock w) name (http.Value cook) (Codecs m))
      as [decoded|e1] eqn:Hdec.
    + change (set_ID decoded
                (set_IsNew true
                   (set_Options
                      (sessions.mkOptions (sessions.Path (Options m))
                         (sessions.Domain (Options m)) (sessions.MaxAge (Options m))
                         (sessions.Secure (Options m)) (sessions.HttpOnly (Options m)))
                      (sessions.NewSession name))))
        with (set_ID decoded (fresh m name)).
      destruct (load sql_eq_id m (set_ID decoded (fresh m name)) w)
        as [[session' [e|]] w'] eqn:Hload; cbn; intros Hsame.
      * pose proof (load_failure_keeps_session _ _ _ _ _ _ _ Hload) as ->.
        cbn. repeat split; try apply Hsame; discriminate.
      * destruct (load_success_sets_values _ _ _ _ _ _ Hload) as [v ->].
        cbn. repeat split; try apply Hsame; try discriminate.
        exists cook. split; [reflexivity|exact Hdec].
    + intros Hsame. cbn. repeat split; try discriminate.
      match goal with
      | Heq : Some e1 = Some _ |- _ => injection Heq as <-
      end.
      exists cook. split; [reflexivity|exact Hdec].
  - intros _. repeat split; discriminate.
Qed.

Lemma New_error_is_decoder_error_witness :
  let r := http.mkRequest [http.mkCookie "sid" "tampered" "" "" 0 false false] in
  let w := mkWorld [mkRow 1 "sid|user=a;" 0 0 3600] 2 0
                   [Some (DriverError "driver: bad connection")] in
  fst (New Sample.sql_eq_id Sample.store r "sid" w)
  = (fresh Sample.store "sid", Some Sample.not_valid) /\
  rows (snd (New Sample.sql_eq_id Sample.store r "sid" w)) = rows w.
Proof.
  intros r w.
  pose proof (New_error_is_decoder_error Sample.sql_eq_id Sample.store r "sid" w) as H.
  destruct (New Sample.sql_eq_id Sample.store r "sid" w) as [[session err] w'] eqn:Hnew.
  destruct H as (_ & _ & (Hrows & _) & Herr & _).
  assert (He : err = Some Sample.not_valid).
  { vm_compute in Hnew. injection Hnew as _ <- _. reflexivity. }
  destruct (Herr _ He) as [-> _]. subst err. split; [reflexivity|exact Hrows].
Defined.


(** X4. A request whose cookie decodes to an identifier, for which
    the select finds a row that has not expired and whose data decode,
    gets the session with that identifier and these values, [IsNew]
    cleared, the options of the store, and no error. *)
Theorem New_existing_session :
  forall {sc : Securecookie} sql_eq_id (m : MySQLStore) (r : http.Request)
         (name : string) (w : World) (cook : http.Cookie) (sid : string)
         (row : Row) (values : gmap string string),
    prepared m ->
    driver_ok w ->
    http.Cookie_ r name = inl cook ->
    decode_ID (clock w) name (http.Value cook) (Codecs m) = inl sid ->
    List.find (fun x => sql_eq_id (id x) sid) (rows w) = Some row ->
    NOW w <= expires_on row ->
    decode_Values (clock w) name (session_data row) (Codecs m) = inl values ->
    New sql_eq_id m r name w
    = (set_IsNew false (set_Values values (set_ID sid (fresh m name))), None, answered w).
Proof.
  intros sc sql_eq_id m r name w cook sid row values
         (_ & _ & _ & Hs & _) Hok Hcook Hdec Hfind Hlive Hval.
  assert (Hq : stmt_query (stmtSelect m) = selQ (table m)) by (rewrite Hs; reflexivity).
  unfold New, DecodeMulti_ID, get_clock, bind, ret.
  rewrite Hcook, Hdec.
  unfold load, DecodeMulti_Values, get_clock, bind, ret.
  cbn [sessions.ID set_ID].
  rewrite (Stmt_QueryRow_ok _ _ _ _ _ Hq Hok).
  unfold Scan, run_select. cbn [row_err row_cols]. rewrite answered_rows, Hfind.
  unfold past_expiry. rewrite answered_NOW.
  destruct (Z.ltb_spec (expires_on row) (NOW w)); [lia|].
  cbn [sess_data sessions.Name sessions.name set_ID set_IsNew set_Options
       sessions.NewSession].
  change (clock (answered w)) with (clock w). rewrite Hval. reflexivity.
Qed.

Lemma New_existing_session_witness :
  let w := mkWorld [mkRow 1 "sid|user=a;" 0 0 3600] 2 (60 * Second) [] in
  let r := http.mkRequest [http.mkCookie "sid" "sid|1" "" "" 0 false false] in
  New Sample.sql_eq_id Sample.store r "sid" w
  = (set_IsNew false (set_Values {["user" := "a"]}
                                 (set_ID "1" (fresh Sample.store "sid"))),
     None, w).
Proof.
  intros w r.
  exact (New_existing_session Sample.sql_eq_id Sample.store r "sid" w
           (http.mkCookie "sid" "sid|1" "" "" 0 false false) "1"
           (mkRow 1 "sid|user=a;" 0 0 3600) {["user" := "a"]}
           sample_prepared eq_refl eq_refl eq_refl eq_refl
           ltac:(vm_compute; discriminate) ltac:(vm_compute; reflexivity)).
Defined.

(** ** [Save] *)

Lemma Stmt_Exec_clock sql_eq_id st args w :
  clock (snd (Stmt_Exec sql_eq_id st args w)) = clock w.
Proof.
  unfold Stmt_Exec, DB_Exec, bind, ret, next_outcome.
  destruct (outcomes w) as [|[e|] os]; cbn; try reflexivity.
  - apply (run_query_clock sql_eq_id (stmt_query st) args w).
  - apply (run_query_clock sql_eq_id (stmt_query st) args (set_outcomes os w)).
Qed.

Lemma LastInsertId_clock res w : clock (snd (LastInsertId res w)) = clock w.
Proof.
  unfold LastInsertId, bind, ret, next_outcome.
  destruct (outcomes w) as [|[e|] os]; reflexivity.
Qed.

(** [insert] touches nothing of the session but its identifier, and not
    the clock. *)
Lemma insert_shape {sc : Securecookie} sql_eq_id m session w session1 err w1 :
  insert sql_eq_id m session w = (session1, err, w1) ->
  clock w1 = clock w /\
  match err with
  | Some _ => session1 = session
  | None => exists i, session1 = set_ID i session
  end.
Proof.
  unfold insert, EncodeMulti_Values, get_clock, bind, ret.
  destruct (encode_Values (clock w) (sessions.Name session) (sessions.Values session)
                          (Codecs m)) as [enc|e]; [|intros [= <- <- <-]; split; reflexivity].
  pose proof (Stmt_Exec_clock sql_eq_id (stmtInsert m) [enc] w) as Hc.
  destruct (Stmt_Exec sql_eq_id (stmtInsert m) [enc] w) as [[res|e] w2]; cbn in Hc;
    [|intros [= <- <- <-]; split; [exact Hc|reflexivity]].
  pose proof (LastInsertId_clock res w2) as Hc2.
  destruct (LastInsertId res w2) as [[n|e] w3]; cbn in Hc2;
    intros [= <- <- <-]; (split; [congruence|]).
  - eexists. reflexivity.
  - reflexivity.
Qed.

Lemma save_shape {sc : Securecookie} sql_eq_id m session w session1 err w1 :
  save sql_eq_id m session w = (session1, err, w1) ->
  clock w1 = clock w /\
  match err with
  | Some _ => session1 = session
  | None => session1 = session \/ exists i, session1 = set_ID i session
  end.
Proof.
  unfold save. destruct (sessions.IsNew session).
  - intros H. apply insert_shape in H. destruct H as [Hc H].
    split; [exact Hc|]. destruct err; [exact H|right; exact H].
  - unfold EncodeMulti_Values, get_clock, bind, ret.
    destruct (encode_Values (clock w) (sessions.Name session) (sessions.Values session)
                            (Codecs m)) as [enc|e];
      [|intros [= <- <- <-]; split; reflexivity].
    pose proof (Stmt_Exec_clock sql_eq_id (stmtUpdate m) [enc; sessions.ID session] w)
      as Hc.
    destruct (Stmt_Exec sql_eq_id (stmtUpdate m) [enc; sessions.ID session] w)
      as [[res|e] w2]; cbn in Hc; intros [= <- <- <-]; (split; [exact Hc|]).
    + left. reflexivity.
    + reflexivity.
Qed.

(** X5. [Save] writes a cookie exactly when it returns no
    error.  On an error the response writer is as it was.  On success
    one cookie has been added after those already written: it has the
    name and the options of the session and its value is the encoding
    of the identifier the session now has.  In both cases the name, the
    values, the options and [IsNew] of the session are as before:
    [Save] changes the identifier at most, and does not clear
    [IsNew]. *)
Theorem Save_cookie_iff_success :
  forall {sc : Securecookie} sql_eq_id (m : MySQLStore) (r : http.Request)
         (rw : http.ResponseWriter) (session : sessions.Session) (w : World),
    let '(rw', session', err, w') := Save sql_eq_id m r rw session w in
    sessions.name session' = sessions.name session /\
    sessions.Values session' = sessions.Values session /\
    sessions.Options session' = sessions.Options session /\
    sessions.IsNew session' = sessions.IsNew session /\
    match err with
    | Some _ => rw' = rw
    | None =>
        exists encoded,
          encode_ID (clock w) (sessions.Name session) (sessions.ID session') (Codecs m)
          = inl encoded /\
          http.SetCookies rw'
          = (http.SetCookies rw
               ++ [sessions.NewCookie (sessions.Name session) encoded
                                      (sessions.Options session)])%list
    end.
Proof.
  intros sc sql_eq_id m r rw session w.
  unfold Save, EncodeMulti_ID, get_clock, bind, ret.
  assert (Hshape : forall session1 err w1,
             (if String.eqb (sessions.ID session) "" then insert sql_eq_id m session
              else save sql_eq_id m session) w = (session1, err, w1) ->
             clock w1 = clock w /\
             match err with
             | Some _ => session1 = session
             | None => session1 = session \/ exists i, session1 = set_ID i session
             end).
  { intros session1 err w1. destruct (String.eqb (sessions.ID session) "").
    - intros H. apply insert_shape in H. destruct H as [Hc H].
      split; [exact Hc|]. destruct err; [exact H|right; exact H].
    - apply save_shape. }
  destruct ((if String.eqb (sessions.ID session) "" then insert sql_eq_id m session
             else save sql_eq_id m session) w) as [[session1 err] w1].
  destruct (Hshape session1 err w1 eq_refl) as [Hc Hs].
  destruct err as [e|].
  - subst session1. repeat split.
  - assert (Hfields : sessions.name session1 = sessions.name session /\
                      sessions.Values session1 = sessions.Values session /\
                      sessions.Options session1 = sessions.Options session /\
                      sessions.IsNew session1 = sessions.IsNew session).
    { destruct Hs as [->|[i ->]]; repeat split. }
    destruct Hfields as (Hn & Hv & Ho & Hi).
    unfold sessions.Name. rewrite Hn, Ho, Hc.
    destruct (encode_ID (clock w) (sessions.name session) (sessions.ID session1)
                        (Codecs m)) as [encoded|e] eqn:Henc.
    + repeat split; try assumption. exists encoded. split; [exact Henc|reflexivity].
    + repeat split; assumption.
Qed.

Lemma Save_cookie_iff_success_witness :
  let session := set_Values {["user" := "a"]} (fresh Sample.store "sid") in
  let w := set_outcomes [None; Some (DriverError "driver: bad connection")]
                        Sample.empty_world in
  http.SetCookies
    (fst (fst (fst (Save Sample.sql_eq_id Sample.store (http.mkRequest [])
                         (http.mkResponseWriter []) session w)))) = [] /\
  exists encoded,
    http.SetCookies
      (fst (fst (fst (Save Sample.sql_eq_id Sample.store (http.mkRequest [])
                           (http.mkResponseWriter []) session Sample.empty_world))))
    = [http.mkCookie "sid" encoded "/" "" 3600 false false].
Proof.
  intros session w. split.
  - pose proof (Save_cookie_iff_success Sample.sql_eq_id Sample.store (http.mkRequest [])
                  (http.mkResponseWriter []) session w) as H.
    destruct (Save Sample.sql_eq_id Sample.store (http.mkRequest [])
                   (http.mkResponseWriter []) session w)
      as [[[rw' s'] err] w'] eqn:Hsave.
    assert (He : err = Some (DriverError "driver: bad connection"))
      by (vm_compute in Hsave; congruence).
    subst err. destruct H as (_ & _ & _ & _ & ->). reflexivity.
  - pose proof (Save_cookie_iff_success Sample.sql_eq_id Sample.store (http.mkRequest [])
                  (http.mkResponseWriter []) session Sample.empty_world) as H.
    destruct (Save Sample.sql_eq_id Sample.store (http.mkRequest [])
                   (http.mkResponseWriter []) session Sample.empty_world)
      as [[[rw' s'] err] w'] eqn:Hsave.
    assert (He : err = None) by (vm_compute in Hsave; congruence).
    subst err. destruct H as (_ & _ & _ & _ & encoded & _ & Hc).
    exists encoded. cbn [fst]. rewrite Hc. reflexivity.
Defined.


(** A successful [insert]: one row appended under the value of the
    counter, the counter moved by one, the identifier of the session set
    to that value in decimal. *)
Lemma insert_success {sc : Securecookie} sql_eq_id m session w session1 w1 :
  prepared m ->
  insert sql_eq_id m session w = (session1, None, w1) ->
  exists enc,
    encode_Values (clock w) (sessions.Name session) (sessions.Values session) (Codecs m)
    = inl enc /\
    session1 = set_ID (Sprintf_d (auto_increment w)) session /\
    rows w1 = (rows w ++ [mkRow (auto_increment w) enc (NOW w) (NOW w)
                                (NOW w + sessions.MaxAge (Options m))])%list /\
    auto_increment w1 = auto_increment w + 1 /\
    clock w1 = clock w.
Proof.
  intros (Hi & _) Hins.
  unfold insert, EncodeMulti_Values, Stmt_Exec, DB_Exec, LastInsertId, get_clock,
    next_outcome, bind, ret in Hins.
  rewrite Hi in Hins. cbn [stmt_query] in Hins.
  destruct (encode_Values (clock w) (sessions.Name session)
                          (sessions.Values session) (Codecs m)) as [enc|encErr];
    [|discriminate Hins].
  exists enc. split; [reflexivity|].
  destruct w as [rs ai ck os]. cbn in Hins |- *.
  destruct os as [|[e|] os]; cbn in Hins; try discriminate Hins.
  - injection Hins as <- <-. repeat split.
  - destruct os as [|[e|] os]; cbn in Hins; try discriminate Hins;
      injection Hins as <- <-; repeat split.
Qed.

Lemma Save_inserting {sc : Securecookie} sql_eq_id m r rw session w rw1 session1 w1 :
  prepared m ->
  sessions.ID session = "" \/ sessions.IsNew session = true ->
  Save sql_eq_id m r rw session w = (rw1, session1, None, w1) ->
  insert sql_eq_id m session w = (session1, None, w1).
Proof.
  intros Hp Hnew. unfold Save, bind, ret.
  assert (Hfirst : (if String.eqb (sessions.ID session) "" then insert sql_eq_id m session
                    else save sql_eq_id m session) = insert sql_eq_id m session).
  { destruct (String.eqb_spec (sessions.ID session) ""); [reflexivity|].
    destruct Hnew as [Hid|Hnew]; [contradiction|].
    unfold save. rewrite Hnew. reflexivity. }
  rewrite Hfirst.
  destruct (insert sql_eq_id m session w) as [[s1 [e|]] w2]; [discriminate|].
  unfold EncodeMulti_ID, get_clock, bind, ret.
  match goal with
  | |- context [encode_ID ?a ?b ?c ?d] => destruct (encode_ID a b c d)
  end; [|discriminate].
  intros [= _ <- <-]. reflexivity.
Qed.

(** X6. A [Save] that succeeds on a session without identifier,
    or on a session that has [IsNew] set whatever its identifier,
    appends one row to the table and leaves the rows that were there:
    the new row has the value of the counter as its [id] and expires
    after the lifetime of the store, and the session is given this value
    in decimal as its identifier, in place of the one it had. *)
Theorem Save_new_session_inserts :
  forall {sc : Securecookie} sql_eq_id (m : MySQLStore) (r : http.Request)
         (rw rw1 : http.ResponseWriter) (session session1 : sessions.Session)
         (w w1 : World),
    prepared m ->
    sessions.ID session = "" \/ sessions.IsNew session = true ->
    Save sql_eq_id m r rw session w = (rw1, session1, None, w1) ->
    exists enc,
      encode_Values (clock w) (sessions.Name session) (sessions.Values session) (Codecs m)
      = inl enc /\
      rows w1 = (rows w ++ [mkRow (auto_increment w) enc (NOW w) (NOW w)
                                  (NOW w + sessions.MaxAge (Options m))])%list /\
      auto_increment w1 = auto_increment w + 1 /\
      sessions.ID session1 = Sprintf_d (auto_increment w).
Proof.
  intros sc sql_eq_id m r rw rw1 session session1 w w1 Hp Hnew Hsave.
  pose proof (Save_inserting _ _ _ _ _ _ _ _ _ Hp Hnew Hsave) as Hins.
  destruct (insert_success _ _ _ _ _ _ Hp Hins) as (enc & Henc & -> & Hrows & Hai & _).
  exists enc. repeat split; assumption.
Qed.

Lemma Save_new_session_inserts_witness :
  let w := mkWorld [mkRow 1 "sid|user=a;" 0 0 3600] 2 (7200 * Second) [] in
  let session := set_Values {["user" := "b"]} (set_ID "1" (fresh Sample.store "sid")) in
  exists enc,
    rows (snd (Save Sample.sql_eq_id Sample.store (http.mkRequest [])
                    (http.mkResponseWriter []) session w))
    = [mkRow 1 "sid|user=a;" 0 0 3600; mkRow 2 enc 7200 7200 10800].
Proof.
  intros w session.
  destruct (Save Sample.sql_eq_id Sample.store (http.mkRequest [])
                 (http.mkResponseWriter []) session w) as [[[rw1 s1] err] w1] eqn:Hsave.
  assert (Herr : err = None) by (vm_compute in Hsave; congruence).
  subst err.
  destruct (Save_new_session_inserts Sample.sql_eq_id Sample.store (http.mkRequest [])
              (http.mkResponseWriter []) rw1 session s1 w w1 sample_prepared
              (or_intror eq_refl) Hsave) as (enc & _ & Hrows & _).
  exists enc. cbn [snd]. rewrite Hrows. reflexivity.
Defined.

(** [fmt.Sprintf("%d", _)] tells integers apart. *)
Lemma Sprintf_d_inj (a b : Z) : Sprintf_d a = Sprintf_d b -> a = b.
Proof.
  intros H.
  assert (Hpos : forall k, Z.to_int k <> Decimal.Pos Decimal.Nil).
  { intros [|p|p]; simpl; try discriminate.
    intros [= Hp]. exact (DecimalPos.Unsigned.to_uint_nonnil _ Hp). }
  assert (Hneg : forall k, Z.to_int k <> Decimal.Neg Decimal.Nil).
  { intros [|p|p]; simpl; try discriminate.
    intros [= Hp]. exact (DecimalPos.Unsigned.to_uint_nonnil _ Hp). }
  unfold Sprintf_d in H.
  pose proof (NilZero.isi (Z.to_int a) (Hpos a) (Hneg a)) as Ha.
  pose proof (NilZero.isi (Z.to_int b) (Hpos b) (Hneg b)) as Hb.
  rewrite H in Ha. rewrite Ha in Hb. injection Hb as Hab.
  apply DecimalZ.to_int_inj. exact Hab.
Qed.

(** X7. [Save] does not clear [IsNew]: when a session with
    [IsNew] set is saved twice in a row and both calls succeed, each
    call inserts a row.  The table ends with two new rows under
    consecutive identifiers, the session carries the second one, which
    differs from the first, and the first row is left behind. *)
Theorem Save_twice_inserts_twice :
  forall {sc : Securecookie} sql_eq_id (m : MySQLStore) (r : http.Request)
         (rw rw1 rw2 : http.ResponseWriter) (session session1 session2 : sessions.Session)
         (w w1 w2 : World),
    prepared m ->
    sessions.IsNew session = true ->
    Save sql_eq_id m r rw session w = (rw1, session1, None, w1) ->
    Save sql_eq_id m r rw1 session1 w1 = (rw2, session2, None, w2) ->
    sessions.IsNew session2 = true /\
    sessions.ID session1 = Sprintf_d (auto_increment w) /\
    sessions.ID session2 = Sprintf_d (auto_increment w + 1) /\
    sessions.ID session2 <> sessions.ID session1 /\
    exists enc1 enc2,
      rows w2 = (rows w ++ [mkRow (auto_increment w) enc1 (NOW w) (NOW w)
                                  (NOW w + sessions.MaxAge (Options m));
                            mkRow (auto_increment w + 1) enc2 (NOW w1) (NOW w1)
                                  (NOW w1 + sessions.MaxAge (Options m))])%list.
Proof.
  intros sc sql_eq_id m r rw rw1 rw2 session session1 session2 w w1 w2
         Hp Hnew Hsave1 Hsave2.
  pose proof (Save_inserting _ _ _ _ _ _ _ _ _ Hp (or_intror Hnew) Hsave1) as Hins1.
  destruct (insert_success _ _ _ _ _ _ Hp Hins1) as (enc1 & _ & -> & Hrows1 & Hai1 & _).
  assert (Hnew1 : sessions.IsNew (set_ID (Sprintf_d (auto_increment w)) session) = true)
    by exact Hnew.
  pose proof (Save_inserting _ _ _ _ _ _ _ _ _ Hp (or_intror Hnew1) Hsave2) as Hins2.
  destruct (insert_success _ _ _ _ _ _ Hp Hins2) as (enc2 & _ & -> & Hrows2 & _ & _).
  cbn [sessions.IsNew sessions.ID set_ID].
  split; [exact Hnew|]. split; [reflexivity|].
  split; [rewrite Hai1; reflexivity|].
  split.
  - rewrite Hai1. intros Heq. apply Sprintf_d_inj in Heq. lia.
  - exists enc1, enc2. rewrite Hrows2, Hrows1, Hai1, <- app_assoc. reflexivity.
Qed.

Lemma Save_twice_inserts_twice_witness :
  let session := set_Values {["user" := "a"]} (fresh Sample.store "sid") in
  let '(rw1, session1, _, w1) :=
    Save Sample.sql_eq_id Sample.store (http.mkRequest []) (http.mkResponseWriter [])
         session Sample.empty_world in
  let '(_, session2, _, w2) :=
    Save Sample.sql_eq_id Sample.store (http.mkRequest []) rw1 session1 w1 in
  sessions.ID session1 = "1" /\ sessions.ID session2 = "2" /\
  List.map id (rows w2) = [1; 2].
Proof.
  intros session.
  destruct (Save Sample.sql_eq_id Sample.store (http.mkRequest [])
                 (http.mkResponseWriter []) session Sample.empty_world)
    as [[[rw1 s1] err1] w1] eqn:Hsave1.
  destruct (Save Sample.sql_eq_id Sample.store (http.mkRequest []) rw1 s1 w1)
    as [[[rw2 s2] err2] w2] eqn:Hsave2.
  assert (Herr1 : err1 = None) by (vm_compute in Hsave1; congruence).
  subst err1.
  assert (Herr2 : err2 = None).
  { vm_compute in Hsave1. injection Hsave1 as <- <- <-.
    vm_compute in Hsave2. congruence. }
  subst err2.
  destruct (Save_twice_inserts_twice Sample.sql_eq_id Sample.store (http.mkRequest [])
              (http.mkResponseWriter []) rw1 rw2 session s1 s2 Sample.empty_world w1 w2
              sample_prepared eq_refl Hsave1 Hsave2)
    as (_ & Hid1 & Hid2 & _ & enc1 & enc2 & Hrows).
  split; [exact Hid1|]. split; [exact Hid2|]. rewrite Hrows. reflexivity.
Defined.

(** X8. When the driver fails the next call, [Save] returns an
    error (that of the driver, or that of the codec if the values did
    not even encode), and nothing has happened: the table, its counter,
    the session and the response writer are as they were. *)
Theorem Save_driver_failure :
  forall {sc : Securecookie} sql_eq_id (m : MySQLStore) (r : http.Request)
         (rw : http.ResponseWriter) (session : sessions.Session) (w : World)
         (err : error) (os : list (option error)),
    outcomes w = Some err :: os ->
    exists e w',
      Save sql_eq_id m r rw session w = (rw, session, Some e, w') /\
      same_table w w' /\
      (e = err \/
       encode_Values (clock w) (sessions.Name session) (sessions.Values session)
                     (Codecs m) = inr e).
Proof.
  intros sc sql_eq_id m r rw session w err os Htape.
  destruct w as [rs ai ck os0]. cbn in Htape. subst os0.
  unfold Save, save, insert, EncodeMulti_Values, Stmt_Exec, DB_Exec, next_outcome,
    get_clock, bind, ret.
  destruct (encode_Values ck (sessions.Name session) (sessions.Values session)
                          (Codecs m)) as [enc|encErr] eqn:Henc; cbn [clock].
  - exists err, (mkWorld rs ai ck os).
    destruct (String.eqb (sessions.ID session) ""); [|destruct (sessions.IsNew session)];
      cbn; rewrite Henc; cbn;
        (split; [reflexivity|]; split; [repeat split|left; reflexivity]).
  - exists encErr, (mkWorld rs ai ck (Some err :: os)).
    destruct (String.eqb (sessions.ID session) ""); [|destruct (sessions.IsNew session)];
      cbn; rewrite Henc; cbn;
        (split; [reflexivity|]; split; [repeat split|right; reflexivity]).
Qed.

Lemma Save_driver_failure_witness :
  let w := mkWorld [mkRow 1 "sid|user=a;" 0 0 3600] 2 0
                   [Some (DriverError "driver: bad connection")] in
  let session := set_Values {["user" := "b"]} (fresh Sample.store "sid") in
  exists e w',
    Save Sample.sql_eq_id Sample.store (http.mkRequest []) (http.mkResponseWriter [])
         session w
    = (http.mkResponseWriter [], session, Some e, w') /\
    rows w' = rows w.
Proof.
  intros w session.
  destruct (Save_driver_failure Sample.sql_eq_id Sample.store (http.mkRequest [])
              (http.mkResponseWriter []) session w
              (DriverError "driver: bad connection") [] eq_refl)
    as (e & w' & Hsave & (Hrows & _) & _).
  exists e, w'. split; assumption.
Defined.

(** ** [Delete] *)

Lemma find_filter_none {A} (f : A -> bool) (l : list A) :
  List.find f (List.filter (fun x => negb (f x)) l) = None.
Proof.
  induction l as [|x l IH]; cbn; [reflexivity|].
  destruct (f x) eqn:Hfx; cbn; [exact IH|]. rewrite Hfx. exact IH.
Qed.

(** X9. When the driver does not fail, [Delete] returns no error and
    the table has lost the rows the statement selects for the
    identifier of the session, and only those: every other row is still
    there, in its place.  A [load] under the same identifier on that
    table then fails with [sql.ErrNoRows]. *)
Theorem Delete_removes_session :
  forall {sc : Securecookie} sql_eq_id (m : MySQLStore) (r : http.Request)
         (rw : http.ResponseWriter) (session : sessions.Session) (w : World),
    prepared m ->
    driver_ok w ->
    let '(_, session', err, w') := Delete sql_eq_id m r rw session w in
    err = None /\
    sessions.ID session' = sessions.ID session /\
    rows w' = List.filter (fun x => negb (sql_eq_id (id x) (sessions.ID session)))
                          (rows w) /\
    (forall x, In x (rows w') <->
               In x (rows w) /\ sql_eq_id (id x) (sessions.ID session) = false) /\
    (forall w2, rows w2 = rows w' -> driver_ok w2 ->
                load sql_eq_id m session' w2 = (session', Some ErrNoRows, answered w2)).
Proof.
  intros sc sql_eq_id m r rw session w (_ & Hd & _ & Hs & _) Hok.
  unfold Delete, bind, ret. cbn [sessions.ID set_Values].
  rewrite (Stmt_Exec_ok _ _ _ _ Hok), Hd. cbn [stmt_query run_query].
  cbn [rows set_rows sessions.ID set_Values answered_rows].
  split; [reflexivity|]. split; [reflexivity|].
  rewrite answered_rows.
  split; [reflexivity|]. split.
  - intros x. rewrite filter_In, negb_true_iff. reflexivity.
  - intros w2 Hrows Hok2.
    assert (Hq : stmt_query (stmtSelect m) = selQ (table m)) by (rewrite Hs; reflexivity).
    unfold load, bind, ret. cbn [sessions.ID].
    rewrite (Stmt_QueryRow_ok _ _ _ _ _ Hq Hok2).
    unfold Scan, run_select. cbn [row_err row_cols].
    rewrite answered_rows, Hrows.
    rewrite (find_filter_none (fun x => sql_eq_id (id x) (sessions.ID session))).
    reflexivity.
Qed.

Lemma Delete_removes_session_witness :
  let w := mkWorld [mkRow 1 "sid|user=a;" 0 0 3600; mkRow 2 "sid|user=b;" 5 5 3605]
                   3 0 [] in
  let session := set_Values {["user" := "a"]} (set_ID "1" (fresh Sample.store "sid")) in
  rows (snd (Delete Sample.sql_eq_id Sample.store (http.mkRequest [])
                    (http.mkResponseWriter []) session w))
  = [mkRow 2 "sid|user=b;" 5 5 3605].
Proof.
  intros w session.
  pose proof (Delete_removes_session Sample.sql_eq_id Sample.store (http.mkRequest [])
                (http.mkResponseWriter []) session w sample_prepared eq_refl) as H.
  destruct (Delete Sample.sql_eq_id Sample.store (http.mkRequest [])
                   (http.mkResponseWriter []) session w) as [[[rw' s'] err] w'].
  destruct H as (_ & _ & Hrows & _). cbn [snd]. rewrite Hrows. reflexivity.
Defined.

(** ** Expiry *)

Lemma find_map_update sql_eq_id now data idp (rs : list Row) :
  List.find (fun x => sql_eq_id (id x) idp)
            (List.map (update_row sql_eq_id now data idp) rs)
  = option_map (update_row sql_eq_id now data idp)
               (List.find (fun x => sql_eq_id (id x) idp) rs).
Proof.
  induction rs as [|x rs IH]; cbn; [reflexivity|].
  rewrite update_row_id. destruct (sql_eq_id (id x) idp); [reflexivity|exact IH].
Qed.

(** A successful update of a session that is not new. *)
Lemma Save_updating {sc : Securecookie} sql_eq_id m r rw session w rw1 session1 w1 :
  prepared m ->
  sessions.ID session <> "" ->
  sessions.IsNew session = false ->
  Save sql_eq_id m r rw session w = (rw1, session1, None, w1) ->
  session1 = session /\
  exists enc,
    rows w1 = List.map (update_row sql_eq_id (NOW w) enc (sessions.ID session)) (rows w).
Proof.
  intros (_ & _ & Hu & _) Hid Hold.
  unfold Save. apply String.eqb_neq in Hid. rewrite Hid.
  unfold save. rewrite Hold.
  unfold EncodeMulti_Values, EncodeMulti_ID, Stmt_Exec, DB_Exec, get_clock,
    next_outcome, bind, ret.
  rewrite Hu. cbn [stmt_query].
  destruct (encode_Values (clock w) (sessions.Name session)
                          (sessions.Values session) (Codecs m)) as [enc|encErr];
    [|discriminate].
  destruct w as [rs ai ck os]. cbn.
  destruct os as [|[e|] os]; cbn; try discriminate;
    match goal with
    | |- context [encode_ID ?a ?b ?c ?d] => destruct (encode_ID a b c d)
    end; try discriminate;
    intros [= _ <- <-]; (split; [reflexivity|]); exists enc; reflexivity.
Qed.

(** X10. Saving an existing session does not give it more time.
    After a successful [Save] of a session that has an identifier and is
    not new, the row found for it still expires when it did, so a
    [load] after that moment fails with "Session expired", however
    recently the session was saved. *)
Theorem Save_does_not_renew :
  forall {sc : Securecookie} sql_eq_id (m : MySQLStore) (r : http.Request)
         (rw rw1 : http.ResponseWriter) (session session1 : sessions.Session)
         (w w1 w2 : World) (row : Row),
    prepared m ->
    sessions.ID session <> "" ->
    sessions.IsNew session = false ->
    List.find (fun x => sql_eq_id (id x) (sessions.ID session)) (rows w) = Some row ->
    Save sql_eq_id m r rw session w = (rw1, session1, None, w1) ->
    rows w2 = rows w1 ->
    driver_ok w2 ->
    expires_on row < NOW w2 ->
    load sql_eq_id m session1 w2
    = (session1, Some (errorString "Session expired"), answered w2).
Proof.
  intros sc sql_eq_id m r rw rw1 session session1 w w1 w2 row
         Hp Hid Hold Hfind Hsave Hrows Hok Hpast.
  destruct (Save_updating _ _ _ _ _ _ _ _ _ Hp Hid Hold Hsave) as (-> & enc & Hrows1).
  destruct Hp as (_ & _ & _ & Hs & _).
  assert (Hq : stmt_query (stmtSelect m) = selQ (table m)) by (rewrite Hs; reflexivity).
  unfold load, bind, ret.
  rewrite (Stmt_QueryRow_ok _ _ _ _ _ Hq Hok).
  unfold Scan, run_select. cbn [row_err row_cols].
  rewrite answered_rows, Hrows, Hrows1, find_map_update, Hfind. cbn [option_map].
  unfold past_expiry. rewrite update_row_expires, answered_NOW.
  destruct (Z.ltb_spec (expires_on row) (NOW w2)); [reflexivity|lia].
Qed.

Lemma Save_does_not_renew_witness :
  let w := mkWorld [mkRow 1 "sid|user=a;" 0 0 3600] 2 (3599 * Second) [] in
  let w1 := mkWorld [mkRow 1 "sid|user=b;" 0 3599 3600] 2 (3599 * Second) [] in
  let w2 := set_clock (3601 * Second) w1 in
  let session := set_IsNew false (set_Values {["user" := "b"]}
                                             (set_ID "1" (fresh Sample.store "sid"))) in
  load Sample.sql_eq_id Sample.store session w2
  = (session, Some (errorString "Session expired"), w2).
Proof.
  intros w w1 w2 session.
  exact (Save_does_not_renew Sample.sql_eq_id Sample.store (http.mkRequest [])
           (http.mkResponseWriter [])
           (http.mkResponseWriter [http.mkCookie "sid" "sid|1" "/" "" 3600 false false])
           session session w w1 w2 (mkRow 1 "sid|user=a;" 0 0 3600)
           sample_prepared ltac:(discriminate) eq_refl eq_refl
           ltac:(vm_compute; reflexivity) eq_refl eq_refl
           ltac:(vm_compute; reflexivity)).
Defined.

Lemma find_filter_keep {A} (f g : A -> bool) (l : list A) (x : A) :
  List.find f l = Some x -> g x = true -> List.find f (List.filter g l) = Some x.
Proof.
  intros Hfind Hg. induction l as [|y l IH]; cbn in *; [discriminate|].
  destruct (f y) eqn:Hfy.
  - injection Hfind as ->. rewrite Hg. cbn. rewrite Hfy. reflexivity.
  - destruct (g y); cbn; [rewrite Hfy|]; exact (IH Hfind).
Qed.

Lemma find_filter_all_gone {A} (f g : A -> bool) (l : list A) :
  (forall x, In x l -> f x = true -> g x = false) ->
  List.find f (List.filter g l) = None.
Proof.
  intros H. induction l as [|y l IH]; cbn; [reflexivity|].
  assert (IH' : List.find f (List.filter g l) = None).
  { apply IH. intros x Hx. apply H. right. exact Hx. }
  destruct (g y) eqn:Hgy; [|exact IH'].
  cbn. destruct (f y) eqn:Hfy; [|exact IH'].
  rewrite (H y (or_introl eq_refl) Hfy) in Hgy. discriminate.
Qed.

Lemma purge_rows {sc : Securecookie} sql_eq_id (m : MySQLStore) w :
  prepared m ->
  driver_ok w ->
  Stmt_Exec sql_eq_id (stmtCleanup m) [] w
  = (inl (mkResult 0 (count_rows (past_expiry (NOW w)) (rows w))),
     set_rows (List.filter (fun x => negb (past_expiry (NOW w) x)) (rows w))
              (answered w)).
Proof.
  intros (_ & _ & _ & _ & Hc) Hok.
  rewrite (Stmt_Exec_ok _ _ _ _ Hok), Hc. reflexivity.
Qed.

(** X11. The sweep is not seen by a session that is alive: when
    the row the select finds for an identifier has not expired, [load]
    under this identifier gives the same session and the same error
    after the delete-expired statement has run as before it. *)
Theorem purge_keeps_live_session :
  forall {sc : Securecookie} sql_eq_id (m : MySQLStore) (session : sessions.Session)
         (w : World) (row : Row),
    prepared m ->
    driver_ok w ->
    driver_ok (answered w) ->
    List.find (fun x => sql_eq_id (id x) (sessions.ID session)) (rows w) = Some row ->
    NOW w <= expires_on row ->
    fst (load sql_eq_id m session (snd (Stmt_Exec sql_eq_id (stmtCleanup m) [] w)))
    = fst (load sql_eq_id m session w).
Proof.
  intros sc sql_eq_id m session w row Hp Hok Hok2 Hfind Hlive.
  rewrite (purge_rows sql_eq_id m w Hp Hok). cbn [snd].
  destruct Hp as (_ & _ & _ & Hs & _).
  assert (Hq : stmt_query (stmtSelect m) = selQ (table m)) by (rewrite Hs; reflexivity).
  unfold load, bind, ret.
  rewrite (Stmt_QueryRow_ok _ _ _ _ _ Hq Hok).
  rewrite (Stmt_QueryRow_ok sql_eq_id _ _ _
             (set_rows (List.filter (fun x => negb (past_expiry (NOW w) x)) (rows w))
                       (answered w)) Hq Hok2).
  unfold Scan, run_select. cbn [row_err row_cols].
  rewrite !answered_rows. cbn [rows set_rows]. rewrite Hfind.
  assert (Hkept : negb (past_expiry (NOW w) row) = true).
  { unfold past_expiry. destruct (Z.ltb_spec (expires_on row) (NOW w)); [lia|reflexivity]. }
  rewrite (find_filter_keep _ (fun x => negb (past_expiry (NOW w) x)) _ row Hfind Hkept).
  change (NOW (answered (set_rows
                (List.filter (fun x => negb (past_expiry (NOW w) x)) (rows w))
                (answered w)))) with (NOW w).
  rewrite answered_NOW.
  apply negb_true_iff in Hkept. rewrite Hkept.
  unfold DecodeMulti_Values, get_clock, bind, ret. cbn [sess_data clock answered
    set_outcomes set_rows].
  destruct (decode_Values (clock w) (sessions.Name session) (session_data row) (Codecs m));
    reflexivity.
Qed.

Lemma purge_keeps_live_session_witness :
  let w := mkWorld [mkRow 1 "sid|user=a;" 0 0 5; mkRow 2 "sid|user=b;" 0 0 3600]
                   3 (60 * Second) [] in
  let session := set_ID "2" (fresh Sample.store "sid") in
  fst (load Sample.sql_eq_id Sample.store session
            (snd (Stmt_Exec Sample.sql_eq_id (stmtCleanup Sample.store) [] w)))
  = (set_Values {["user" := "b"]} session, None).
Proof.
  intros w session.
  rewrite (purge_keeps_live_session Sample.sql_eq_id Sample.store session w
             (mkRow 2 "sid|user=b;" 0 0 3600) sample_prepared eq_refl eq_refl eq_refl
             ltac:(vm_compute; discriminate)).
  vm_compute. reflexivity.
Defined.

(** X12. Once the delete-expired statement has run, an
    identifier whose rows had all expired is unknown: [load] fails with
    [sql.ErrNoRows], where before the sweep it failed with "Session
    expired". *)
Theorem purge_then_load_not_found :
  forall {sc : Securecookie} sql_eq_id (m : MySQLStore) (session : sessions.Session)
         (w : World),
    prepared m ->
    driver_ok w ->
    driver_ok (answered w) ->
    (forall x, In x (rows w) -> sql_eq_id (id x) (sessions.ID session) = true ->
               expires_on x < NOW w) ->
    fst (load sql_eq_id m session (snd (Stmt_Exec sql_eq_id (stmtCleanup m) [] w)))
    = (session, Some ErrNoRows).
Proof.
  intros sc sql_eq_id m session w Hp Hok Hok2 Hall.
  rewrite (purge_rows sql_eq_id m w Hp Hok). cbn [snd].
  destruct Hp as (_ & _ & _ & Hs & _).
  assert (Hq : stmt_query (stmtSelect m) = selQ (table m)) by (rewrite Hs; reflexivity).
  unfold load, bind, ret.
  rewrite (Stmt_QueryRow_ok sql_eq_id _ _ _
             (set_rows (List.filter (fun x => negb (past_expiry (NOW w) x)) (rows w))
                       (answered w)) Hq Hok2).
  unfold Scan, run_select. cbn [row_err row_cols].
  rewrite answered_rows. cbn [rows set_rows].
  rewrite find_filter_all_gone; [reflexivity|].
  intros x Hx Hsel. unfold past_expiry.
  specialize (Hall x Hx Hsel).
  destruct (Z.ltb_spec (expires_on x) (NOW w)); [reflexivity|lia].
Qed.

Lemma purge_then_load_not_found_witness :
  let w := mkWorld [mkRow 1 "sid|user=a;" 0 0 5; mkRow 2 "sid|user=b;" 0 0 3600]
                   3 (60 * Second) [] in
  let session := set_ID "1" (fresh Sample.store "sid") in
  fst (load Sample.sql_eq_id Sample.store session w)
  = (session, Some (errorString "Session expired")) /\
  fst (load Sample.sql_eq_id Sample.store session
            (snd (Stmt_Exec Sample.sql_eq_id (stmtCleanup Sample.store) [] w)))
  = (session, Some ErrNoRows).
Proof.
  intros w session. split; [vm_compute; reflexivity|].
  apply (purge_then_load_not_found Sample.sql_eq_id Sample.store session w
           sample_prepared eq_refl eq_refl).
  intros x [<-|[<-|[]]] Hsel; [vm_compute; reflexivity|vm_compute in Hsel; discriminate].
Defined.

(** ** The name of the table *)

Lemma TrimRight_cons (a : ascii) (s cutset : string) :
  TrimRight (String a s) cutset
  = match TrimRight s cutset with
    | EmptyString => if in_cutset a cutset then EmptyString else String a EmptyString
    | String b t => String a (String b t)
    end.
Proof. reflexivity. Qed.

Lemma TrimRight_app_tick (s : string) :
  TrimRight (s +:+ "`") "`" = TrimRight s "`".
Proof.
  induction s as [|a s IH]; [reflexivity|].
  change (String a s +:+ "`") with (String a (s +:+ "`")).
  rewrite !TrimRight_cons, IH. reflexivity.
Qed.

Lemma Trim_app_tick (t : string) :
  TrimRight (TrimLeft (t +:+ "`") "`") "`" = TrimRight (TrimLeft t "`") "`".
Proof.
  induction t as [|a t IH]; [reflexivity|].
  change (String a t +:+ "`") with (String a (t +:+ "`")).
  cbn [TrimLeft].
  destruct (in_cutset a "`"); [exact IH|].
  exact (TrimRight_app_tick (String a t)).
Qed.

Lemma TrimRight_idem (s cutset : string) :
  TrimRight (TrimRight s cutset) cutset = TrimRight s cutset.
Proof.
  induction s as [|a s IH]; [reflexivity|].
  rewrite TrimRight_cons.
  destruct (TrimRight s cutset) as [|b t] eqn:Ht.
  - destruct (in_cutset a cutset) eqn:Ha; [reflexivity|].
    rewrite TrimRight_cons. cbn [TrimRight]. rewrite Ha. reflexivity.
  - rewrite TrimRight_cons, IH. reflexivity.
Qed.

Lemma TrimLeft_TrimRight (s cutset : string) :
  TrimLeft s cutset = s -> TrimLeft (TrimRight s cutset) cutset = TrimRight s cutset.
Proof.
  destruct s as [|a s]; [reflexivity|].
  cbn [TrimLeft]. destruct (in_cutset a cutset) eqn:Ha.
  - intros H. exfalso.
    assert (Hlen : forall u, (String.length (TrimLeft u cutset) <= String.length u)%nat).
    { induction u as [|b u IHu]; cbn; [lia|].
      destruct (in_cutset b cutset); cbn; lia. }
    specialize (Hlen s). rewrite H in Hlen. cbn in Hlen. lia.
  - intros _. rewrite TrimRight_cons.
    destruct (TrimRight s cutset); rewrite ?Ha; cbn [TrimLeft]; rewrite ?Ha;
      reflexivity.
Qed.

Lemma TrimLeft_idem (s cutset : string) :
  TrimLeft (TrimLeft s cutset) cutset = TrimLeft s cutset.
Proof.
  induction s as [|a s IH]; [reflexivity|].
  cbn [TrimLeft]. destruct (in_cutset a cutset) eqn:Ha; [exact IH|].
  cbn [TrimLeft]. rewrite Ha. reflexivity.
Qed.

Lemma Trim_idem (s cutset : string) : Trim (Trim s cutset) cutset = Trim s cutset.
Proof.
  unfold Trim.
  rewrite (TrimLeft_TrimRight (TrimLeft s cutset) cutset (TrimLeft_idem s cutset)).
  apply TrimRight_idem.
Qed.

(** X13. The constructor encloses the name of the table in one
    pair of backticks whether or not the caller did: a name, the same
    name between backticks, and the same name without the backticks
    around it give the same store, the same error and the same state. *)
Theorem table_name_enclosed_once :
  forall {sc : Securecookie} sql_eq_id (db : DB) (tableName path : string)
         (maxAge : Z) (keyPairs : list (list Byte.byte)) (w : World),
    NewMySQLStoreFromConnection sql_eq_id db ("`" +:+ tableName +:+ "`") path maxAge
                                keyPairs w
    = NewMySQLStoreFromConnection sql_eq_id db tableName path maxAge keyPairs w /\
    NewMySQLStoreFromConnection sql_eq_id db (Trim tableName "`") path maxAge keyPairs w
    = NewMySQLStoreFromConnection sql_eq_id db tableName path maxAge keyPairs w.
Proof.
  intros sc sql_eq_id db tableName path maxAge keyPairs w.
  assert (H1 : Trim ("`" +:+ tableName +:+ "`") "`" = Trim tableName "`").
  { unfold Trim. cbn [String.append TrimLeft in_cutset Ascii.eqb Bool.eqb orb].
    apply Trim_app_tick. }
  split.
  - unfold NewMySQLStoreFromConnection. rewrite H1. reflexivity.
  - unfold NewMySQLStoreFromConnection. rewrite Trim_idem. reflexivity.
Qed.

Example table_name_variants :
  Trim "sessions" "`" = "sessions" /\
  Trim "`sessions`" "`" = "sessions" /\
  Trim "``sessions" "`" = "sessions" /\
  Trim "`" "`" = "".
Proof. repeat split. Qed.

(** ** From [Save] to the next request *)

(** The cookie a successful [Save] writes. *)
Lemma Save_success_cookie {sc : Securecookie} sql_eq_id m r rw session w rw1 session1 w1 :
  prepared m ->
  sessions.ID session = "" \/ sessions.IsNew session = true ->
  Save sql_eq_id m r rw session w = (rw1, session1, None, w1) ->
  exists encoded,
    encode_ID (clock w) (sessions.Name session) (sessions.ID session1) (Codecs m)
    = inl encoded /\
    rw1 = http.SetCookie rw (sessions.NewCookie (sessions.Name session) encoded
                                                (sessions.Options session)).
Proof.
  intros Hp Hnew Hsave.
  pose proof (Save_inserting _ _ _ _ _ _ _ _ _ Hp Hnew Hsave) as Hins.
  destruct (insert_success _ _ _ _ _ _ Hp Hins) as (enc & _ & Hs1 & _ & _ & Hck).
  revert Hsave. unfold Save, bind, ret.
  assert (Hfirst : (if String.eqb (sessions.ID session) "" then insert sql_eq_id m session
                    else save sql_eq_id m session) = insert sql_eq_id m session).
  { destruct (String.eqb_spec (sessions.ID session) ""); [reflexivity|].
    destruct Hnew as [Hid|Hnew]; [contradiction|].
    unfold save. rewrite Hnew. reflexivity. }
  rewrite Hfirst, Hins. unfold EncodeMulti_ID, get_clock, bind, ret.
  rewrite Hck. subst session1.
  change (sessions.Name (set_ID (Sprintf_d (auto_increment w)) session))
    with (sessions.Name session).
  change (sessions.Options (set_ID (Sprintf_d (auto_increment w)) session))
    with (sessions.Options session).
  destruct (encode_ID (clock w) (sessions.Name session)
                      (sessions.ID (set_ID (Sprintf_d (auto_increment w)) session))
                      (Codecs m)) as [encoded|e]; [|discriminate].
  intros Heq. exists encoded. split; [reflexivity|congruence].
Qed.

(** X14. The whole cycle: a session without identifier is saved, the
    browser sends back the cookie that [Save] wrote, and [New] on that
    request, on the same table and not after the expiration of the row,
    returns the session with the identifier [Save] assigned, the values
    that were saved and [IsNew] cleared.  The codec is expected to
    decode, at the time of the request, the two tokens it produced at
    the time of the save. *)
Theorem Save_then_New_roundtrip :
  forall {sc : Securecookie} sql_eq_id (m : MySQLStore) (r : http.Request)
         (rw rw1 : http.ResponseWriter) (session session1 : sessions.Session)
         (w w1 w2 : World) (cookie : http.Cookie),
    prepared m ->
    (forall n k, sql_eq_id n (Sprintf_d k) = (n =? k)) ->
    counter_ahead w ->
    sessions.ID session = "" ->
    Save sql_eq_id m r rw session w = (rw1, session1, None, w1) ->
    http.SetCookies rw1 = (http.SetCookies rw ++ [cookie])%list ->
    rows w2 = rows w1 ->
    driver_ok w2 ->
    NOW w2 <= NOW w + sessions.MaxAge (Options m) ->
    (forall enc,
        encode_Values (clock w) (sessions.Name session) (sessions.Values session)
                      (Codecs m) = inl enc ->
        decode_Values (clock w2) (sessions.Name session) enc (Codecs m)
        = inl (sessions.Values session)) ->
    (forall token,
        encode_ID (clock w) (sessions.Name session) (sessions.ID session1) (Codecs m)
        = inl token ->
        decode_ID (clock w2) (sessions.Name session) token (Codecs m)
        = inl (sessions.ID session1)) ->
    New sql_eq_id m (http.mkRequest [cookie]) (sessions.Name session) w2
    = (set_IsNew false
         (set_Values (sessions.Values session)
                     (set_ID (sessions.ID session1) (fresh m (sessions.Name session)))),
       None, answered w2).
Proof.
  intros sc sql_eq_id m r rw rw1 session session1 w w1 w2 cookie
         Hp Hlaw Hahead Hid Hsave Hcookies Hrows Hok Hlive Hvalues Htoken.
  destruct (Save_success_cookie _ _ _ _ _ _ _ _ _ Hp (or_introl Hid) Hsave)
    as (encoded & Henc & Hrw1).
  pose proof (Save_inserting _ _ _ _ _ _ _ _ _ Hp (or_introl Hid) Hsave) as Hins.
  destruct (insert_success _ _ _ _ _ _ Hp Hins) as (enc & Hencv & Hs1 & Hrows1 & _ & _).
  assert (Hc : cookie = sessions.NewCookie (sessions.Name session) encoded
                                           (sessions.Options session)).
  { rewrite Hrw1 in Hcookies. cbn in Hcookies.
    apply app_inv_head in Hcookies. congruence. }
  destruct Hp as (_ & _ & _ & Hs & _).
  assert (Hq : stmt_query (stmtSelect m) = selQ (table m)) by (rewrite Hs; reflexivity).
  unfold New, http.Cookie_, DecodeMulti_ID, get_clock, bind, ret.
  cbn [http.Cookies List.find]. rewrite Hc. cbn [sessions.NewCookie http.Name http.Value].
  rewrite String.eqb_refl.
  change (http.Value (sessions.NewCookie (sessions.Name session) encoded
                                         (sessions.Options session)))
    with encoded.
  rewrite (Htoken encoded Henc).
  unfold load, DecodeMulti_Values, get_clock, bind, ret.
  cbn [sessions.ID set_ID].
  rewrite (Stmt_QueryRow_ok _ _ _ _ _ Hq Hok).
  unfold Scan, run_select. cbn [row_err row_cols].
  rewrite answered_rows, Hrows, Hrows1, Hs1. cbn [sessions.ID set_ID].
  set (row := mkRow (auto_increment w) enc (NOW w) (NOW w)
                    (NOW w + sessions.MaxAge (Options m))).
  change (auto_increment w) with (id row).
  rewrite (find_appended sql_eq_id (rows w) row Hlaw Hahead).
  unfold past_expiry. rewrite answered_NOW.
  cbn [expires_on row session_data sess_data].
  destruct (Z.ltb_spec (NOW w + sessions.MaxAge (Options m)) (NOW w2)); [lia|].
  cbn [sessions.Name sessions.name set_ID set_IsNew set_Options sessions.NewSession].
  change (clock (answered w2)) with (clock w2).
  change (sessions.name session) with (sessions.Name session).
  rewrite (Hvalues enc Hencv). reflexivity.
Qed.

Lemma Save_then_New_roundtrip_witness :
  let session := set_Values {["user" := "a"]} (fresh Sample.store "sid") in
  let cookie := http.mkCookie "sid" "sid|1" "/" "" 3600 false false in
  let w1 := mkWorld [mkRow 1 "sid|user=a;" 0 0 3600] 2 0 [] in
  let w2 := set_clock (1800 * Second) w1 in
  New Sample.sql_eq_id Sample.store (http.mkRequest [cookie]) "sid" w2
  = (set_IsNew false (set_ID "1" session), None, w2).
Proof.
  intros session cookie w1 w2.
  assert (Hsave :
            Save Sample.sql_eq_id Sample.store (http.mkRequest [])
                 (http.mkResponseWriter []) session Sample.empty_world
            = (http.mkResponseWriter [cookie], set_ID "1" session, None, w1))
    by (vm_compute; reflexivity).
  exact (Save_then_New_roundtrip Sample.sql_eq_id Sample.store (http.mkRequest [])
           (http.mkResponseWriter []) (http.mkResponseWriter [cookie])
           session (set_ID "1" session) Sample.empty_world w1 w2 cookie
           sample_prepared sample_sql_eq_id_decimal (List.Forall_nil _) eq_refl
           Hsave eq_refl eq_refl eq_refl ltac:(vm_compute; discriminate)
           ltac:(intros enc Henc; vm_compute in Henc; injection Henc as <-;
                 vm_compute; reflexivity)
           ltac:(intros token Htok; vm_compute in Htok; injection Htok as <-;
                 vm_compute; reflexivity)).
Defined.

(** ** [NewMySQLStore] *)

Ltac open_leaf :=
  split;
  [ repeat split
  | split;
    [ first [ left; eexists; split;
              [reflexivity
              |split; [reflexivity
                      |split; [repeat split|split; reflexivity]]]
            | right; split; [reflexivity | eexists; reflexivity] ]
    | let e := fresh "e" in
      let os := fresh "os" in
      let Ht := fresh "Ht" in
      intros e os Ht;
      first [ discriminate Ht
            | injection Ht as <- <-; repeat split ] ] ].

Ltac tape_walk n os :=
  lazymatch n with
  | O => idtac
  | S ?n' =>
      let e := fresh "e" in
      destruct os as [|[e|] os]; cbn; [open_leaf | open_leaf | tape_walk n' os]
  end.

(** X15. [NewMySQLStore] returns a store with no error or an error
    with no store, and issues nothing that changes the rows of the
    table.  A store it returns has the five statements prepared for the
    enclosed name of the table and carries the path and the lifetime it
    was given.  When opening the data source fails, that error is
    returned and the driver is not asked anything more. *)
Theorem NewMySQLStore_result :
  forall {sc : Securecookie} sql_eq_id (endpoint tableName path : string)
         (maxAge : Z) (keyPairs : list (list Byte.byte)) (w : World),
    let '(store, err, w') :=
      NewMySQLStore sql_eq_id endpoint tableName path maxAge keyPairs w in
    same_table w w' /\
    ((exists m, store = Some m /\ err = None /\ prepared m /\
                table m = "`" +:+ Trim tableName "`" +:+ "`" /\
                Options m = sessions.mkOptions path "" maxAge false false) \/
     (store = None /\ exists e, err = Some e)) /\
    (forall e os, outcomes w = Some e :: os ->
                  store = None /\ err = Some e /\ w' = set_outcomes os w).
Proof.
  intros sc sql_eq_id endpoint tableName path maxAge keyPairs [rs ai ck os].
  unfold NewMySQLStore, sql_Open, NewMySQLStoreFromConnection, DB_Exec, DB_Prepare,
    bind, ret, next_outcome.
  cbn [outcomes].
  destruct os as [|[e|] os]; cbn; [open_leaf|open_leaf|].
  destruct os as [|[e0|] os]; cbn; [open_leaf| |].
  - destruct e0 as [n s| | |s|s|s]; cbn; try open_leaf.
    destruct (n =? 1142); cbn; [|open_leaf].
    tape_walk 5%nat os. cbn. open_leaf.
  - tape_walk 5%nat os. cbn. open_leaf.
Qed.

Lemma NewMySQLStore_result_witness :
  let w := set_outcomes [Some (DriverError "invalid DSN: missing the slash"); None]
                        Sample.empty_world in
  NewMySQLStore (sc := Sample.codec) Sample.sql_eq_id "user@tcp(db)" "sessions" "/"
                3600 Sample.key w
  = (None, Some (DriverError "invalid DSN: missing the slash"),
     set_outcomes [None] Sample.empty_world).
Proof.
  intros w.
  pose proof (NewMySQLStore_result (sc := Sample.codec) Sample.sql_eq_id "user@tcp(db)"
                "sessions" "/" 3600 Sample.key w) as H.
  destruct (NewMySQLStore Sample.sql_eq_id "user@tcp(db)" "sessions" "/" 3600
                          Sample.key w) as [[store err] w'].
  destruct H as (_ & _ & H).
  destruct (H _ _ eq_refl) as (-> & -> & ->). reflexivity.
Defined.


Example NewMySQLStore_bad_dsn :
  let w := set_outcomes [Some (DriverError "invalid DSN: missing the slash")]
                        Sample.empty_world in
  NewMySQLStore (sc := Sample.codec) Sample.sql_eq_id "user@tcp(db)" "sessions" "/"
                3600 Sample.key w
  = (None, Some (DriverError "invalid DSN: missing the slash"), Sample.empty_world).
Proof. reflexivity. Qed.


(** * Further properties of the sweeper *)

Lemma started_with_positive interval : 0 < started_with interval.
Proof.
  unfold started_with. destruct (Z.leb_spec interval 0); [reflexivity|assumption].
Qed.

Lemma Cleanup_timing interval w :
  timing_inv (clock w) (started_with interval) (Cleanup interval w).
Proof.
  unfold timing_inv, Cleanup, started_with. cbn.
  split; [lia|]. split; [intros i [= <-]; repeat split|].
  split; [intros t [=]|]. split; [intros [=]|]. intros H. contradiction.
Qed.

Lemma step_timing {sc : Securecookie} sql_eq_id m c0 i e s s' :
  0 < i ->
  timing_inv c0 i s ->
  step sql_eq_id m e s = Some s' ->
  timing_inv c0 i s'.
Proof.
  intros Hi. destruct s as [w tk tkr ow lg sw]. unfold timing_inv. cbn.
  intros (Hc & Hsp & Htk & Hpu & Hsw) Hstep.
  destruct e; cbn in Hstep.
  - (* Elapse *)
    destruct (Z.ltb_spec d 0); [discriminate|]. injection Hstep as <-. cbn.
    split; [lia|]. split; [exact Hsp|].
    split; [intros t Ht; destruct (Htk t Ht) as (Hp & Hn & HC);
            repeat split; try assumption; intros HCt; specialize (HC HCt); lia|].
    split; [intros Hp; specialize (Hpu Hp); lia|].
    intros Hs; specialize (Hsw Hs); lia.
  - (* Fire *)
    destruct tkr as [[p n c st]|]; [|discriminate]. cbn in Hstep.
    destruct st; cbn in Hstep; [discriminate|].
    destruct (Z.leb_spec n (clock w)); [|discriminate].
    injection Hstep as <-. cbn.
    destruct (Htk _ eq_refl) as (Hp & Hn & HC). cbn in Hp, Hn, HC.
    split; [exact Hc|].
    split; [intros interval Hint; destruct (Hsp interval Hint) as (_ & [=] & _)|].
    split; [intros t [= <-]; cbn; repeat split; lia|].
    split; assumption.
  - (* Run *)
    unfold cleanup_run in Hstep. cbn in Hstep.
    destruct tk; try discriminate.
    + destruct (Hsp interval eq_refl) as (-> & -> & ->).
      unfold NewTicker in Hstep. destruct (Z.leb_spec i 0); [lia|].
      injection Hstep as <-. cbn.
      split; [exact Hc|]. split; [intros interval [=]|].
      split; [intros t [= <-]; cbn; repeat split; try lia; discriminate|].
      split; [intros [=]|]. intros Hs. contradiction.
    + pose proof (Stmt_Exec_clock sql_eq_id (stmtCleanup m) [] w) as Hck.
      specialize (Hpu eq_refl).
      destruct (Stmt_Exec sql_eq_id (stmtCleanup m) [] w) as [[res|err] w1];
        cbn in Hck; injection Hstep as <-; cbn; rewrite Hck;
        (split; [exact Hc|]; split; [intros interval [=]|];
         split; [exact Htk|]; split; [intros [=]|]; intros _; exact Hpu).
    + injection Hstep as <-. cbn.
      split; [exact Hc|]. split; [intros interval [=]|].
      split; [|split; [intros [=]|exact Hsw]].
      intros t Ht. destruct tkr as [t0|]; [|discriminate Ht].
      cbn in Ht. injection Ht as <-. destruct (Htk t0 eq_refl) as (Hp & Hn & HC).
      cbn. repeat split; assumption.
  - (* RecvTick *)
    destruct tk; try discriminate.
    destruct tkr as [[p n c st]|]; [|discriminate]. cbn in Hstep.
    destruct c; [|discriminate]. injection Hstep as <-. cbn.
    destruct (Htk _ eq_refl) as (Hp & Hn & HC). cbn in Hp, Hn, HC.
    split; [exact Hc|]. split; [intros interval [=]|].
    split; [intros t [= <-]; cbn; repeat split; try assumption; discriminate|].
    split; [intros _; exact (HC eq_refl)|exact Hsw].
  - (* CallStop *)
    destruct ow; try discriminate. injection Hstep as <-. cbn.
    exact (conj Hc (conj Hsp (conj Htk (conj Hpu Hsw)))).
  - (* Quit *)
    destruct ow; try discriminate. destruct tk; try discriminate.
    injection Hstep as <-. cbn.
    split; [exact Hc|]. split; [intros interval [=]|].
    split; [exact Htk|]. split; [intros [=]|exact Hsw].
  - (* Done *)
    destruct ow; try discriminate. destruct tk; try discriminate.
    injection Hstep as <-. cbn.
    split; [exact Hc|]. split; [intros interval [=]|].
    split; [exact Htk|]. split; [intros [=]|exact Hsw].
Qed.

Lemma run_timing {sc : Securecookie} sql_eq_id m c0 i es :
  0 < i ->
  forall s s',
    timing_inv c0 i s ->
    run sql_eq_id m es s = Some s' ->
    timing_inv c0 i s'.
Proof.
  intros Hi. induction es as [|e es IH]; intros s s' Hinv Hrun; cbn in Hrun.
  - injection Hrun as <-. exact Hinv.
  - destruct (step sql_eq_id m e s) as [s1|] eqn:Hstep; [|discriminate].
    exact (IH s1 s' (step_timing sql_eq_id m c0 i e s s1 Hi Hinv Hstep) Hrun).
Qed.

(** X16. [time.NewTicker] panics on an interval that is not
    positive; the goroutine [Cleanup] starts never does.  In every state
    the sweeper reaches, whatever interval [Cleanup] was given, the
    goroutine has not panicked, and the ticker, once created, has a
    positive period: the interval given if it was positive,
    [defaultInterval] otherwise. *)
Theorem Cleanup_never_panics :
  forall {sc : Securecookie} sql_eq_id (m : MySQLStore) (interval : Z) (w : World)
         (es : list event) (s : System),
    run sql_eq_id m es (Cleanup interval w) = Some s ->
    task s <> Panicked /\
    (forall t, ticker s = Some t ->
               0 < period t /\
               period t = if interval <=? 0 then defaultInterval else interval).
Proof.
  intros sc sql_eq_id m interval w es s Hrun.
  destruct (run_inv sql_eq_id m es _ _ (Cleanup_inv interval w) Hrun) as [Hl _].
  pose proof (run_timing sql_eq_id m (clock w) (started_with interval) es
                (started_with_positive interval) _ _ (Cleanup_timing interval w) Hrun)
    as (_ & _ & Htk & _).
  split.
  - intros Hp. unfold loop_inv in Hl. rewrite Hp in Hl. exact Hl.
  - intros t Ht. destruct (Htk t Ht) as (Hp & _).
    rewrite Hp. split; [apply started_with_positive|reflexivity].
Qed.

Lemma Cleanup_never_panics_witness :
  exists s t,
    run Sample.sql_eq_id Sample.store [Run; Elapse (300 * Second); Fire]
        (Cleanup (-1) Sample.empty_world) = Some s /\
    task s <> Panicked /\ ticker s = Some t /\ period t = 300 * Second.
Proof.
  eexists. eexists.
  assert (Hrun : run Sample.sql_eq_id Sample.store [Run; Elapse (300 * Second); Fire]
                     (Cleanup (-1) Sample.empty_world)
                 = Some (mkSystem (set_clock (300 * Second) Sample.empty_world) Selecting
                           (Some (mkTicker (300 * Second) (600 * Second) true false))
                           Holding [] 0)) by reflexivity.
  split; [exact Hrun|].
  destruct (Cleanup_never_panics Sample.sql_eq_id Sample.store (-1) Sample.empty_world
              _ _ Hrun) as [Hnp Hper].
  split; [exact Hnp|]. split; [reflexivity|].
  exact (proj2 (Hper _ eq_refl)).
Defined.

(** X17. No sweep comes early: in every state the sweeper
    reaches in which the delete-expired statement has been run, or is
    about to be, at least one interval has passed on the clock since
    [Cleanup] was called. *)
Theorem no_purge_before_interval :
  forall {sc : Securecookie} sql_eq_id (m : MySQLStore) (interval : Z) (w : World)
         (es : list event) (s : System),
    run sql_eq_id m es (Cleanup interval w) = Some s ->
    sweeps s <> O \/ task s = Purging ->
    clock w + (if interval <=? 0 then defaultInterval else interval)
    <= clock (world s).
Proof.
  intros sc sql_eq_id m interval w es s Hrun Hsome.
  pose proof (run_timing sql_eq_id m (clock w) (started_with interval) es
                (started_with_positive interval) _ _ (Cleanup_timing interval w) Hrun)
    as (_ & _ & _ & Hpu & Hsw).
  destruct Hsome as [Hs|Hp]; [exact (Hsw Hs)|exact (Hpu Hp)].
Qed.

Lemma no_purge_before_interval_witness :
  let w := mkWorld [mkRow 1 "sid|user=a;" 0 0 5] 2 (7 * Second) [] in
  let s := mkSystem (mkWorld [] 2 (17 * Second) []) Selecting
                    (Some (mkTicker (10 * Second) (27 * Second) false false))
                    Holding [] 1 in
  run Sample.sql_eq_id Sample.store [Run; Elapse (10 * Second); Fire; RecvTick; Run]
      (Cleanup (10 * Second) w) = Some s /\
  clock w + 10 * Second <= clock (world s).
Proof.
  intros w s.
  assert (Hrun : run Sample.sql_eq_id Sample.store
                     [Run; Elapse (10 * Second); Fire; RecvTick; Run]
                     (Cleanup (10 * Second) w) = Some s) by (vm_compute; reflexivity).
  split; [exact Hrun|].
  assert (Hsw : sweeps s <> O \/ task s = Purging) by (left; discriminate).
  pose proof (no_purge_before_interval Sample.sql_eq_id Sample.store (10 * Second) w
                [Run; Elapse (10 * Second); Fire; RecvTick; Run] s Hrun Hsw) as H.
  vm_compute in H. vm_compute. exact H.
Defined.

(** ** The sweeper and the table *)

Lemma NOW_monotone w w' : clock w <= clock w' -> NOW w <= NOW w'.
Proof.
  intros H. unfold NOW. apply Z.div_le_mono; [reflexivity|exact H].
Qed.

Lemma purge_rows_cases {sc : Securecookie} sql_eq_id (m : MySQLStore) w :
  prepared m ->
  let w' := snd (Stmt_Exec sql_eq_id (stmtCleanup m) [] w) in
  clock w' = clock w /\
  (rows w' = rows w \/
   rows w' = List.filter (fun x => negb (past_expiry (NOW w) x)) (rows w)).
Proof.
  intros (_ & _ & _ & _ & Hc). cbn zeta.
  split; [apply Stmt_Exec_clock|].
  unfold Stmt_Exec, DB_Exec, bind, ret, next_outcome. rewrite Hc. cbn [stmt_query].
  destruct w as [rs ai ck os]. cbn.
  destruct os as [|[e|] os]; cbn; [right|left|right]; reflexivity.
Qed.

Lemma step_sweep {sc : Securecookie} sql_eq_id m w0 e s s' :
  prepared m ->
  sweep_inv w0 s ->
  step sql_eq_id m e s = Some s' ->
  sweep_inv w0 s'.
Proof.
  intros Hp. destruct s as [w tk tkr ow lg sw]. unfold sweep_inv. cbn.
  intros (Hc & Hin & Hlive) Hstep.
  destruct e; cbn in Hstep.
  - destruct (Z.ltb_spec d 0); [discriminate|]. injection Hstep as <-. cbn.
    split; [lia|]. split; [exact Hin|].
    intros x Hx Hnow. apply Hlive; [exact Hx|].
    assert (Hmono : NOW w <= NOW (set_clock (clock w + d) w))
      by (apply NOW_monotone; cbn; lia).
    lia.
  - destruct tkr as [t|]; [|discriminate].
    destruct (negb (stopped t) && (next_tick t <=? clock w)); [|discriminate].
    injection Hstep as <-. cbn. repeat split; assumption.
  - unfold cleanup_run in Hstep. cbn in Hstep.
    destruct tk; try discriminate.
    + destruct (NewTicker interval (clock w)); injection Hstep as <-; cbn;
        repeat split; assumption.
    + destruct (purge_rows_cases sql_eq_id m w Hp) as [Hck Hrows].
      assert (Hnow : NOW (snd (Stmt_Exec sql_eq_id (stmtCleanup m) [] w)) = NOW w)
        by (unfold NOW; rewrite Hck; reflexivity).
      destruct (Stmt_Exec sql_eq_id (stmtCleanup m) [] w) as [[res|err] w1];
        cbn in Hck, Hrows, Hnow; injection Hstep as <-; cbn; rewrite Hck, Hnow;
        (split; [exact Hc|]);
        (destruct Hrows as [-> | ->];
         [split; assumption
         |split;
          [intros x Hx; apply filter_In in Hx; apply Hin; exact (proj1 Hx)
          |intros x Hx Hnw; apply filter_In; split; [exact (Hlive x Hx Hnw)|];
           unfold past_expiry;
           destruct (Z.ltb_spec (expires_on x) (NOW w)); [lia|reflexivity]]]).
    + injection Hstep as <-. cbn. repeat split; assumption.
  - destruct tk; try discriminate. destruct tkr as [t|]; [|discriminate].
    destruct (C t); [|discriminate]. injection Hstep as <-. cbn.
    repeat split; assumption.
  - destruct ow; try discriminate. injection Hstep as <-. cbn.
    repeat split; assumption.
  - destruct ow; try discriminate. destruct tk; try discriminate.
    injection Hstep as <-. cbn. repeat split; assumption.
  - destruct ow; try discriminate. destruct tk; try discriminate.
    injection Hstep as <-. cbn. repeat split; assumption.
Qed.

(** X18. The sweeper only deletes, and only what has expired:
    in every state it reaches, each row of the table was in the table
    [Cleanup] was called on, and each row of that table which has not
    expired by the present time is still in the table. *)
Theorem sweeper_keeps_live_rows :
  forall {sc : Securecookie} sql_eq_id (m : MySQLStore) (interval : Z) (w : World)
         (es : list event) (s : System),
    prepared m ->
    run sql_eq_id m es (Cleanup interval w) = Some s ->
    (forall x, In x (rows (world s)) -> In x (rows w)) /\
    (forall x, In x (rows w) -> NOW (world s) <= expires_on x ->
               In x (rows (world s))).
Proof.
  intros sc sql_eq_id m interval w es s Hp.
  assert (H0 : sweep_inv w (Cleanup interval w)).
  { unfold sweep_inv, Cleanup. cbn. split; [lia|]. split; intros; assumption. }
  generalize (Cleanup interval w) H0. clear H0.
  induction es as [|e es IH]; intros s0 H0 Hrun; cbn in Hrun.
  - injection Hrun as <-. exact (proj2 H0).
  - destruct (step sql_eq_id m e s0) as [s1|] eqn:Hstep; [|discriminate].
    exact (IH s1 (step_sweep sql_eq_id m w e s0 s1 Hp H0 Hstep) Hrun).
Qed.

Lemma sweeper_keeps_live_rows_witness :
  let w := mkWorld [mkRow 1 "sid|user=a;" 0 0 5; mkRow 2 "sid|user=b;" 0 0 3600]
                   3 0 [] in
  exists s,
    run Sample.sql_eq_id Sample.store [Run; Elapse (10 * Second); Fire; RecvTick; Run]
        (Cleanup (10 * Second) w) = Some s /\
    rows (world s) = [mkRow 2 "sid|user=b;" 0 0 3600] /\
    In (mkRow 2 "sid|user=b;" 0 0 3600) (rows (world s)).
Proof.
  intros w. eexists.
  assert (Hrun : run Sample.sql_eq_id Sample.store
                     [Run; Elapse (10 * Second); Fire; RecvTick; Run]
                     (Cleanup (10 * Second) w)
                 = Some (mkSystem (mkWorld [mkRow 2 "sid|user=b;" 0 0 3600] 3
                                           (10 * Second) [])
                           Selecting
                           (Some (mkTicker (10 * Second) (20 * Second) false false))
                           Holding [] 1)) by reflexivity.
  split; [exact Hrun|]. split; [reflexivity|].
  apply (proj2 (sweeper_keeps_live_rows Sample.sql_eq_id Sample.store (10 * Second) w
                  _ _ sample_prepared Hrun)).
  - right. left. reflexivity.
  - vm_compute. discriminate.
Defined.

(** ** Ticks and sweeps *)

Lemma step_pending {sc : Securecookie} sql_eq_id m e s s' :
  step sql_eq_id m e s = Some s' ->
  (sweeps s' + pending s' <= sweeps s + pending s + fires [e])%nat.
Proof.
  destruct s as [w tk tkr ow lg sw]. unfold pending, fires. cbn.
  intros Hstep. destruct e; cbn in Hstep |- *.
  - destruct (d <? 0); [discriminate|]. injection Hstep as <-. cbn. lia.
  - destruct tkr as [[p n c st]|]; [|discriminate]. cbn in Hstep.
    destruct (negb st && (n <=? clock w)); [|discriminate].
    injection Hstep as <-. cbn. destruct c; lia.
  - unfold cleanup_run in Hstep. cbn in Hstep.
    destruct tk; try discriminate.
    + destruct (NewTicker interval (clock w)) as [t|] eqn:Ht; injection Hstep as <-; cbn.
      * unfold NewTicker in Ht. destruct (interval <=? 0); [discriminate|].
        injection Ht as <-. cbn. lia.
      * lia.
    + destruct (Stmt_Exec sql_eq_id (stmtCleanup m) [] w) as [[res|err] w1];
        injection Hstep as <-; cbn; lia.
    + injection Hstep as <-. cbn. destruct tkr as [t|]; cbn; lia.
  - destruct tk; try discriminate. destruct tkr as [[p n c st]|]; [|discriminate].
    cbn in Hstep. destruct c; [|discriminate]. injection Hstep as <-. cbn. lia.
  - destruct ow; try discriminate. injection Hstep as <-. cbn. lia.
  - destruct ow; try discriminate. destruct tk; try discriminate.
    injection Hstep as <-. cbn. lia.
  - destruct ow; try discriminate. destruct tk; try discriminate.
    injection Hstep as <-. cbn. lia.
Qed.

Lemma fires_cons e es : fires (e :: es) = (fires [e] + fires es)%nat.
Proof. unfold fires. cbn. destruct e; reflexivity. Qed.

Lemma run_pending {sc : Securecookie} sql_eq_id m es :
  forall s s',
    run sql_eq_id m es s = Some s' ->
    (sweeps s' + pending s' <= sweeps s + pending s + fires es)%nat.
Proof.
  induction es as [|e es IH]; intros s s' Hrun; cbn in Hrun.
  - injection Hrun as <-. unfold fires. cbn. lia.
  - destruct (step sql_eq_id m e s) as [s1|] eqn:Hstep; [|discriminate].
    pose proof (step_pending sql_eq_id m e s s1 Hstep) as H1.
    pose proof (IH s1 s' Hrun) as H2.
    rewrite fires_cons. lia.
Qed.

(** X19. The sweeper runs the delete-expired statement at most once
    for each tick the runtime delivers: in every state it reaches, the
    number of sweeps done, plus the tick that waits in the channel and
    the one the goroutine has taken, if any, is at most the number of
    deliveries in the schedule.  A tick delivered while one already
    waits is dropped and answered by no sweep. *)
Theorem sweeps_at_most_ticks :
  forall {sc : Securecookie} sql_eq_id (m : MySQLStore) (interval : Z) (w : World)
         (es : list event) (s : System),
    run sql_eq_id m es (Cleanup interval w) = Some s ->
    (sweeps s + pending s <= fires es)%nat.
Proof.
  intros sc sql_eq_id m interval w es s Hrun.
  pose proof (run_pending sql_eq_id m es _ _ Hrun) as H.
  unfold Cleanup, pending in H. cbn in H. exact H.
Qed.

Lemma sweeps_at_most_ticks_witness :
  let w := mkWorld [] 1 0 [] in
  let es := [Run; Elapse (30 * Second); Fire; Fire; Fire; RecvTick; Run] in
  exists s,
    run Sample.sql_eq_id Sample.store es (Cleanup (10 * Second) w) = Some s /\
    sweeps s = 1%nat /\ fires es = 3%nat /\ (sweeps s + pending s <= fires es)%nat.
Proof.
  intros w es.
  assert (Hrun : run Sample.sql_eq_id Sample.store es (Cleanup (10 * Second) w)
                 = Some (mkSystem (mkWorld [] 1 (30 * Second) []) Selecting
                           (Some (mkTicker (10 * Second) (40 * Second) false false))
                           Holding [] 1)) by (vm_compute; reflexivity).
  eexists. split; [exact Hrun|]. split; [reflexivity|]. split; [reflexivity|].
  exact (sweeps_at_most_ticks Sample.sql_eq_id Sample.store (10 * Second) w es _ Hrun).
Defined.

(** ** Stopping, from anywhere *)

(** X20. The sweeper can always be stopped: from every state it
    reaches there is a schedule of at most five events after which
    [StopCleanup] has returned, the goroutine has exited and the ticker
    is stopped.  On the way the delete-expired statement runs at most
    once more (the sweep the goroutine had already begun). *)
Theorem stop_can_complete :
  forall {sc : Securecookie} sql_eq_id (m : MySQLStore) (interval : Z) (w : World)
         (es : list event) (s : System),
    run sql_eq_id m es (Cleanup interval w) = Some s ->
    exists es' s',
      run sql_eq_id m es' s = Some s' /\
      (length es' <= 5)%nat /\
      owner s' = Returned /\
      task s' = Exited /\
      (exists t, ticker s' = Some t /\ stopped t = true) /\
      (sweeps s' <= S (sweeps s))%nat.
Proof.
  intros sc sql_eq_id m interval w es s Hrun.
  destruct (run_inv sql_eq_id m es _ _ (Cleanup_inv interval w) Hrun) as [Hl Hh].
  clear Hrun. destruct s as [ws tk tkr ow lg sw].
  unfold loop_inv, handshake_inv in Hl, Hh. cbn in Hl, Hh.
  destruct tk; cbn in Hl.
  - (* Spawned *)
    destruct Hl as [Hpos ->].
    assert (Hnt : NewTicker interval0 (clock ws)
                  = Some (mkTicker interval0 (clock ws + interval0) false false)).
    { unfold NewTicker. destruct (Z.leb_spec interval0 0); [lia|reflexivity]. }
    destruct ow; cbn in Hh; try contradiction; try discriminate;
      try (destruct Hh; discriminate).
    + exists [Run; CallStop; Quit; Done; Run]. eexists.
      cbn. unfold cleanup_run. cbn. rewrite Hnt. cbn.
      split; [reflexivity|]. cbn. repeat split; try lia. eexists. split; reflexivity.
    + exists [Run; Quit; Done; Run]. eexists.
      cbn. unfold cleanup_run. cbn. rewrite Hnt. cbn.
      split; [reflexivity|]. cbn. repeat split; try lia. eexists. split; reflexivity.
  - (* Selecting *)
    destruct Hl as (t & -> & Hst & _).
    destruct ow; cbn in Hh; try contradiction; try discriminate;
      try (destruct Hh; discriminate).
    + exists [CallStop; Quit; Done; Run]. eexists. cbn.
      split; [reflexivity|]. cbn. repeat split; try lia. eexists. split; reflexivity.
    + exists [Quit; Done; Run]. eexists. cbn.
      split; [reflexivity|]. cbn. repeat split; try lia. eexists. split; reflexivity.
  - (* Purging *)
    destruct Hl as (t & -> & Hst & _).
    destruct ow; cbn in Hh; try contradiction; try discriminate;
      try (destruct Hh; discriminate).
    + exists [Run; CallStop; Quit; Done; Run].
      cbn. unfold cleanup_run. cbn.
      destruct (Stmt_Exec sql_eq_id (stmtCleanup m) [] ws) as [[res|err] w1]; cbn;
        eexists; (split; [reflexivity|]); cbn; repeat split; try lia;
        eexists; split; reflexivity.
    + exists [Run; Quit; Done; Run].
      cbn. unfold cleanup_run. cbn.
      destruct (Stmt_Exec sql_eq_id (stmtCleanup m) [] ws) as [[res|err] w1]; cbn;
        eexists; (split; [reflexivity|]); cbn; repeat split; try lia;
        eexists; split; reflexivity.
  - (* SendingDone *)
    destruct Hl as (t & -> & Hst & _).
    destruct ow; cbn in Hh; try contradiction; try discriminate;
      try (destruct Hh; discriminate).
    exists [Done; Run]. eexists. cbn.
    split; [reflexivity|]. cbn. repeat split; try lia. eexists. split; reflexivity.
  - (* Returning *)
    destruct Hl as (t & -> & Hst & _).
    destruct ow; cbn in Hh; try contradiction; try discriminate.
    exists [Run]. eexists. cbn.
    split; [reflexivity|]. cbn. repeat split; try lia. eexists. split; reflexivity.
  - (* Exited *)
    destruct Hl as (t & -> & Hst).
    destruct ow; cbn in Hh; try contradiction; try discriminate.
    exists []. eexists. cbn.
    split; [reflexivity|]. cbn. repeat split; try lia. exists t. split; [reflexivity|exact Hst].
  - contradiction.
Qed.

Lemma stop_can_complete_witness :
  let w := mkWorld [mkRow 1 "sid|user=a;" 0 0 5] 2 0 [] in
  let s := mkSystem (set_clock (10 * Second) w) Purging
                    (Some (mkTicker (10 * Second) (20 * Second) false false))
                    Holding [] 0 in
  run Sample.sql_eq_id Sample.store [Run; Elapse (10 * Second); Fire; RecvTick]
      (Cleanup (10 * Second) w) = Some s /\
  exists es' s',
    run Sample.sql_eq_id Sample.store es' s = Some s' /\
    (length es' <= 5)%nat /\
    owner s' = Returned /\
    task s' = Exited /\
    (exists t, ticker s' = Some t /\ stopped t = true) /\
    (sweeps s' <= S (sweeps s))%nat.
Proof.
  intros w s.
  assert (Hrun : run Sample.sql_eq_id Sample.store
                     [Run; Elapse (10 * Second); Fire; RecvTick]
                     (Cleanup (10 * Second) w) = Some s) by (vm_compute; reflexivity).
  split; [exact Hrun|].
  exact (stop_can_complete Sample.sql_eq_id Sample.store (10 * Second) w
           [Run; Elapse (10 * Second); Fire; RecvTick] s Hrun).
Defined.

(** X21. Nothing is left running after the stop: in every state the
    sweeper reaches in which the goroutine has exited, [StopCleanup]
    has returned, the ticker is stopped, and the only thing that can
    still happen is that time passes; no tick is delivered, nothing is
    run, and the table, the log and the count of sweeps stay. *)
Theorem quiet_after_exit :
  forall {sc : Securecookie} sql_eq_id (m : MySQLStore) (interval : Z) (w : World)
         (es : list event) (s : System),
    run sql_eq_id m es (Cleanup interval w) = Some s ->
    task s = Exited ->
    owner s = Returned /\
    (exists t, ticker s = Some t /\ stopped t = true) /\
    (forall e s', step sql_eq_id m e s = Some s' ->
                  exists d, e = Elapse d /\ 0 <= d /\
                            s' = mkSystem (set_clock (clock (world s) + d) (world s))
                                          Exited (ticker s) Returned (log s) (sweeps s)).
Proof.
  intros sc sql_eq_id m interval w es s Hrun Htask.
  destruct (run_inv sql_eq_id m es _ _ (Cleanup_inv interval w) Hrun) as [Hl Hh].
  clear Hrun. destruct s as [ws tk tkr ow lg sw]. cbn in Htask. subst tk.
  unfold loop_inv, handshake_inv in Hl, Hh. cbn in Hl, Hh.
  destruct Hl as (t & -> & Hst).
  assert (Hown : ow = Returned).
  { destruct ow; try contradiction; try discriminate; reflexivity. }
  subst ow. split; [reflexivity|]. split; [exists t; split; [reflexivity|exact Hst]|].
  intros e s' Hstep. destruct e; cbn in Hstep; try discriminate.
  - destruct (Z.ltb_spec d 0); [discriminate|]. injection Hstep as <-.
    exists d. repeat split. exact H.
  - rewrite Hst in Hstep. cbn in Hstep. discriminate.
Qed.

Lemma quiet_after_exit_witness :
  let w := mkWorld [mkRow 1 "sid|user=a;" 0 0 5] 2 0 [] in
  let s := mkSystem w Exited
                    (Some (mkTicker (10 * Second) (10 * Second) false true))
                    Returned [] 0 in
  run Sample.sql_eq_id Sample.store [Run; CallStop; Quit; Done; Run]
      (Cleanup (10 * Second) w) = Some s /\
  step Sample.sql_eq_id Sample.store Fire s = None /\
  forall e s', step Sample.sql_eq_id Sample.store e s = Some s' ->
               exists d, e = Elapse d /\ 0 <= d /\
                         s' = mkSystem (set_clock (clock (world s) + d) (world s))
                                       Exited (ticker s) Returned (log s) (sweeps s).
Proof.
  intros w s.
  assert (Hrun : run Sample.sql_eq_id Sample.store [Run; CallStop; Quit; Done; Run]
                     (Cleanup (10 * Second) w) = Some s) by (vm_compute; reflexivity).
  split; [exact Hrun|]. split; [reflexivity|].
  exact (proj2 (proj2 (quiet_after_exit Sample.sql_eq_id Sample.store (10 * Second) w
                         [Run; CallStop; Quit; Done; Run] s Hrun eq_refl))).
Defined.
